(** * Privacy Badger (Firefox): lib/utils.js

    A shallow embedding of the domain-hierarchy and third-party helpers of
    [lib/utils.js]:

      - [getParentDomain]
      - [checkEachParentDomainString]
      - [isThirdPartyURI]
      - [isThirdPartyChannel]
      - [getWindowForChannel], [getTopWindowForChannel]
      - [getWindowForSdkTab], [getAllWindows]

    The XPCOM services the module talks to ([Services.eTLD],
    [mozIThirdPartyUtil], the URI factory behind [ABPUtils.makeURI]) are
    not part of the add-on; they are an interface ([Platform]) the
    embedding is parametrised by.  Every call that leaves the module
    (a service call or an invocation of the caller's [stringCallback]) is
    recorded in a trace, so that statements such as "the callback is never
    invoked on ..." are statements about that trace. *)

From Stdlib Require Import String Ascii List ZArith Lia Bool Arith.
Import ListNotations.

Set Implicit Arguments.

Local Open Scope string_scope.
Local Open Scope list_scope.

(* ================================================================== *)
(** ** JavaScript strings and arrays, as far as utils.js uses them *)

Module JS.

(** [s.split(sep)] for a one-character separator.  The result is never
    empty: [("").split('.')] is [[""]]. *)
Fixpoint split (sep : ascii) (s : string) : list string :=
  match s with
  | EmptyString => [EmptyString]
  | String c rest =>
      if Ascii.eqb c sep then EmptyString :: split sep rest
      else match split sep rest with
           | [] => [String c EmptyString]
           | piece :: pieces => String c piece :: pieces
           end
  end.

(** [a.join(sep)]. *)
Fixpoint join (sep : string) (a : list string) : string :=
  match a with
  | [] => EmptyString
  | x :: tl =>
      match tl with
      | [] => x
      | _ :: _ => (x ++ sep ++ join sep tl)%string
      end
  end.

(** [a.shift()], keeping the array and dropping the returned element;
    on an empty array it changes nothing. *)
Definition shift (a : list string) : list string := List.tl a.

(** [a.slice(1)]. *)
Definition slice1 (a : list string) : list string := List.tl a.

(** [a.indexOf(x)] on an array of strings and a string [x]: the index of
    the first element strictly equal to [x], or [-1]. *)
Fixpoint indexOf (a : list string) (x : string) : Z :=
  match a with
  | [] => (-1)%Z
  | y :: tl =>
      if String.eqb y x then 0%Z
      else let i := indexOf tl x in
           if (i =? -1)%Z then (-1)%Z else (i + 1)%Z
  end.

(** A string without the given character. *)
Fixpoint lacks (sep : ascii) (s : string) : Prop :=
  match s with
  | EmptyString => True
  | String c rest => c <> sep /\ lacks sep rest
  end.

End JS.

Definition dot : ascii := "."%char.

(** The number of labels of a host name, counted the way the source
    counts them: [s.split('.').length]. *)
Definition labelCount (s : string) : nat := length (JS.split dot s).


(* ================================================================== *)
(** ** The platform the module runs on *)

(** An [nsIURI], reduced to the two attributes utils.js reads. *)
Record nsIURI : Type := { spec : string; host : string }.

(** How a JavaScript call ends: with a value, or with a thrown
    exception. *)
Inductive completion (E A : Type) : Type :=
| Return (a : A)
| Throw (e : E).

Arguments Return {E A} a.
Arguments Throw {E A} e.

(** The XPCOM services and the Adblock Plus helper that utils.js imports.
    None of them is code of the add-on; each is a function that either
    returns or throws.

      - [eTLD_getPublicSuffix], [eTLD_getBaseDomain]: [Services.eTLD];
      - [ThirdPartyUtil_getBaseDomain], [ThirdPartyUtil_isThirdPartyChannel]:
        the [mozIThirdPartyUtil] service;
      - [ABPUtils_makeURI]: [require("./abp/utils").Utils.makeURI]. *)
Class Platform : Type := {
  exn : Type;
  nsIChannel : Type;
  URI : nsIChannel -> nsIURI;
  eTLD_getPublicSuffix : nsIURI -> completion exn string;
  eTLD_getBaseDomain : nsIURI -> completion exn string;
  ThirdPartyUtil_getBaseDomain : nsIURI -> completion exn string;
  ThirdPartyUtil_isThirdPartyChannel : nsIChannel -> completion exn bool;
  ABPUtils_makeURI : string -> completion exn nsIURI
}.

(** Modelled from the spec: [ThirdPartyUtil.isThirdPartyURI], the platform
    service behind [exports.isThirdPartyURI], whose code is not in the
    add-on.  The spec: compare the base domain of the request URI and of
    the document URI, and return true iff they differ; a base domain that
    cannot be computed is a failure. *)
Definition ThirdPartyUtil_isThirdPartyURI `{Platform}
  (uri docUri : nsIURI) : completion exn bool :=
  match ThirdPartyUtil_getBaseDomain uri with
  | Throw e => Throw e
  | Return base =>
      match ThirdPartyUtil_getBaseDomain docUri with
      | Throw e => Throw e
      | Return docBase => Return (negb (String.eqb base docBase))
      end
  end.

(** What leaves the module: one event per call of a service and per
    invocation of the caller's [stringCallback] (with what it returned). *)
Inductive event `{Platform} : Type :=
| GetPublicSuffix (uri : nsIURI)
| GetBaseDomain (uri : nsIURI)
| StringCallback (arg : string) (result : bool)
| MakeURI (url : string)
| IsThirdPartyURI (uri docUri : nsIURI)
| IsThirdPartyChannel (channel : nsIChannel).

(* ================================================================== *)
(** ** Computations: state, trace and exceptions *)

Section Computations.

Context `{P : Platform}.

(** The state of the caller, which a [stringCallback] may read and
    change (a blocklist lookup that counts hits, say). *)
Variable St : Type.

Record world : Type := { user : St; trace : list event }.

Definition M (A : Type) : Type := world -> completion exn A * world.

Definition ret {A} (a : A) : M A := fun w => (Return a, w).

Definition bind {A B} (m : M A) (k : A -> M B) : M B :=
  fun w =>
    match m w with
    | (Return a, w') => k a w'
    | (Throw e, w') => (Throw e, w')
    end.

(** [try { return m } catch (e) { return h e }]. *)
Definition try_catch {A} (m : M A) (h : exn -> M A) : M A :=
  fun w =>
    match m w with
    | (Return a, w') => (Return a, w')
    | (Throw e, w') => h e w'
    end.

Definition record (ev : event) (w : world) : world :=
  {| user := user w; trace := trace w ++ [ev] |}.

(** A call of a platform service: recorded, then answered. *)
Definition service {A} (ev : event) (answer : completion exn A) : M A :=
  fun w => (answer, record ev w).

(** An invocation of the caller's callback.  Its result is read for its
    truthiness only. *)
Definition invoke (stringCallback : string -> St -> bool * St)
  (arg : string) : M bool :=
  fun w =>
    let (result, st) := stringCallback arg (user w) in
    (Return result,
     {| user := st; trace := trace w ++ [StringCallback arg result] |}).

(** The events a computation adds to the trace of the world it starts
    in. *)
Definition performed {A} (m : M A) (w : world) : list event :=
  skipn (length (trace w)) (trace (snd (m w))).

(** The strings the callback was invoked on, in order. *)
Fixpoint callbackArgs (t : list event) : list string :=
  match t with
  | [] => []
  | StringCallback arg _ :: t' => arg :: callbackArgs t'
  | _ :: t' => callbackArgs t'
  end.

(** The results the callback returned, in order. *)
Fixpoint callbackResults (t : list event) : list bool :=
  match t with
  | [] => []
  | StringCallback _ result :: t' => result :: callbackResults t'
  | _ :: t' => callbackResults t'
  end.

End Computations.

Arguments ret {P St A} a.
Arguments invoke {P St} stringCallback arg.
Arguments service {P St A} ev answer.

Declare Scope js_scope.
Delimit Scope js_scope with js.
Notation "x <- m ;; k" := (bind m (fun x => k))
  (at level 61, m at next level, right associativity) : js_scope.

(* ================================================================== *)
(** ** lib/utils.js *)

Section Utils.

Context `{P : Platform}.
Variable St : Type.

Local Open Scope js_scope.

(** [const fakeThirdPartyURLs] (utils.js, line 14). *)
Definition fakeThirdPartyURLs : list string :=
  ["http://localhost:8099/test-request-3rd-party-cookieblock.sjs"%string].

(** [exports.isThirdPartyURI] (line 154).  The parameters are the two
    URL strings. *)
Definition isThirdPartyURI (uri docUri : string) : M St bool :=
  if negb (JS.indexOf fakeThirdPartyURLs uri =? -1)%Z then ret true
  else
    uri' <- service (MakeURI uri) (ABPUtils_makeURI uri) ;;
    docUri' <- service (MakeURI docUri) (ABPUtils_makeURI docUri) ;;
    service (IsThirdPartyURI uri' docUri')
            (ThirdPartyUtil_isThirdPartyURI uri' docUri').

(** [exports.getBaseDomain = ThirdPartyUtil.getBaseDomain] (line 169). *)
Definition getBaseDomain (uri : nsIURI) : M St string :=
  service (GetBaseDomain uri) (ThirdPartyUtil_getBaseDomain uri).

(** [exports.getParentDomain] (line 179). *)
Definition getParentDomain (uri : nsIURI) : M St string :=
  suffix <- service (GetPublicSuffix uri) (eTLD_getPublicSuffix uri) ;;
  let suffixLength := length (JS.split dot suffix) in
  let hostArray := JS.split dot (host uri) in
  if (Z.of_nat (length hostArray) - Z.of_nat suffixLength <? 3)%Z
  then service (GetBaseDomain uri) (eTLD_getBaseDomain uri)
  else ret (JS.join "." (JS.slice1 hostArray)).

(** The [while] loop of [checkEachParentDomainString] (lines 214-218).
    The recursion is on [hostArray], which every turn shifts: [shifted]
    is [hostArray] after [hostArray.shift()].  On the empty array the
    guard [hostArray.length - suffixLength > 0] is false whatever
    [suffixLength] is, an array length being at least 0, so that case
    returns at once. *)
Fixpoint eachParent (stringCallback : string -> St -> bool * St)
  (suffixLength : nat) (hostArray : list string) {struct hostArray}
  : M St bool :=
  match hostArray with
  | [] => ret false
  | _ :: shifted =>
      if (Z.of_nat (length hostArray) - Z.of_nat suffixLength >? 0)%Z
      then
        result <- invoke stringCallback (JS.join "." hostArray) ;;
        if result then ret true
        else eachParent stringCallback suffixLength shifted
      else ret false
  end.

(** [ignoreSelf || false], for an argument that may be left out. *)
Definition orFalse (ignoreSelf : option bool) : bool :=
  match ignoreSelf with
  | Some b => b
  | None => false
  end.

(** [exports.checkEachParentDomainString] (line 204). *)
Definition checkEachParentDomainString (uri : nsIURI)
  (stringCallback : string -> St -> bool * St)
  (ignoreSelf : option bool) : M St bool :=
  let ignoreSelf := orFalse ignoreSelf in
  suffix <- service (GetPublicSuffix uri) (eTLD_getPublicSuffix uri) ;;
  let suffixLength := length (JS.split dot suffix) in
  let hostArray := JS.split dot (host uri) in
  let hostArray := if ignoreSelf then JS.shift hostArray else hostArray in
  eachParent stringCallback suffixLength hostArray.

(** [exports.isThirdPartyChannel] (line 227). *)
Definition isThirdPartyChannel (channel : nsIChannel) : M St bool :=
  if negb (JS.indexOf fakeThirdPartyURLs (spec (URI channel)) =? -1)%Z
  then ret true
  else
    try_catch
      (service (IsThirdPartyChannel channel)
               (ThirdPartyUtil_isThirdPartyChannel channel))
      (fun _ => ret false).

End Utils.

Arguments world {P} St.
Arguments M {P} St A.

(* ================================================================== *)
(** ** Vocabulary of the statements *)

(** The string the loop of [checkEachParentDomainString] builds after
    [i] shifts of [hostArray]. *)
Definition candidate (hostArray : list string) (i : nat) : string :=
  JS.join "." (skipn i hostArray).

(** The array the loop of [checkEachParentDomainString] starts from. *)
Definition startArray (uri : nsIURI) (ignoreSelf : option bool) : list string :=
  if orFalse ignoreSelf then JS.shift (JS.split dot (host uri))
  else JS.split dot (host uri).

(** The immediate parent of a host: the host without its leftmost
    label. *)
Definition immediateParent (h : string) : string :=
  JS.join "." (JS.shift (JS.split dot h)).

Section Statements.

Context `{P : Platform}.
Variable St : Type.

(** The events of a walk that invoked the callback on the first [j]
    candidates, each time with answer false, and then, if [hit], on
    candidate [j] with answer true. *)
Definition walkEvents (hostArray : list string) (j : nat) (hit : bool)
  : list event :=
  map (fun i => StringCallback (candidate hostArray i) false) (seq 0 j)
  ++ (if hit then [StringCallback (candidate hostArray j) true] else []).

(** The strings [checkEachParentDomainString] hands to the callback in a
    run from [w]. *)
Definition tested (uri : nsIURI) (stringCallback : string -> St -> bool * St)
  (ignoreSelf : option bool) (w : world St) : list string :=
  callbackArgs (performed (checkEachParentDomainString uri stringCallback ignoreSelf) w).

(** What the callback answered in that run. *)
Definition answers (uri : nsIURI) (stringCallback : string -> St -> bool * St)
  (ignoreSelf : option bool) (w : world St) : list bool :=
  callbackResults (performed (checkEachParentDomainString uri stringCallback ignoreSelf) w).

(** "The base domain is never tested": no tested string has one label
    more than the public suffix. *)
Definition baseDomainNeverTested : Prop :=
  forall uri stringCallback ignoreSelf (w : world St) suffix arg,
    eTLD_getPublicSuffix uri = Return suffix ->
    In arg (tested uri stringCallback ignoreSelf w) ->
    labelCount arg <> labelCount suffix + 1.

(** "With [ignoreSelf], the host is never tested and its immediate parent
    is", for every host the platform resolves. *)
Definition ignoreSelfTestsParent : Prop :=
  forall uri stringCallback (w : world St) suffix,
    eTLD_getPublicSuffix uri = Return suffix ->
    ~ In (host uri) (tested uri stringCallback (Some true) w) /\
    In (immediateParent (host uri)) (tested uri stringCallback (Some true) w).

(** [getParentDomain(getBaseDomain(h))], the base domain being handed on
    as the URI [uriOfHost] makes of it. *)
Definition parentOfBaseDomain (uriOfHost : string -> nsIURI) (uri : nsIURI)
  : M St string :=
  bind (getBaseDomain uri) (fun base => getParentDomain (uriOfHost base)).

(** "[getParentDomain(getBaseDomain(h)) = getBaseDomain(h)] for every
    host whose base domain the platform gives." *)
Definition baseDomainIsFloor : Prop :=
  forall (uriOfHost : string -> nsIURI) uri base (w : world St),
    (forall h, host (uriOfHost h) = h) ->
    ThirdPartyUtil_getBaseDomain uri = Return base ->
    fst (parentOfBaseDomain uriOfHost uri w) = Return base.

End Statements.

(* ================================================================== *)
(** ** A small platform to run the module on *)

Module TestPlatform.

(** A public suffix list of four rules. *)
Definition rules : list string := ["com"; "org"; "uk"; "co.uk"]%string.

(** The longest run of trailing labels that is a rule. *)
Fixpoint longestRule (labels : list string) : option string :=
  match labels with
  | [] => None
  | _ :: tl =>
      if existsb (String.eqb (JS.join "." labels)) rules
      then Some (JS.join "." labels)
      else longestRule tl
  end.

Definition publicSuffix (uri : nsIURI) : completion string string :=
  if String.eqb (host uri) "" then Throw "NS_ERROR_INSUFFICIENT_DOMAIN_LEVELS"%string
  else
    match longestRule (JS.split dot (host uri)) with
    | Some suffix => Return suffix
    | None => Return (last (JS.split dot (host uri)) ""%string)
    end.

(** The public suffix and one more label; an error when the host has no
    label to spare. *)
Definition baseDomain (uri : nsIURI) : completion string string :=
  match publicSuffix uri with
  | Throw e => Throw e
  | Return suffix =>
      let labels := JS.split dot (host uri) in
      let k := labelCount suffix in
      if (length labels <=? k)%nat
      then Throw "NS_ERROR_INSUFFICIENT_DOMAIN_LEVELS"%string
      else Return (JS.join "." (skipn (length labels - (k + 1)) labels))
  end.

(** The base domain as [mozIThirdPartyUtil] gives it: a host without
    enough labels (an alias such as [localhost]) is its own base
    domain; an empty host is an error. *)
Definition thirdPartyBaseDomain (uri : nsIURI) : completion string string :=
  match baseDomain uri with
  | Return base => Return base
  | Throw e =>
      if String.eqb (host uri) "" then Throw e else Return (host uri)
  end.

(** A channel: its URI and, when it has a load context, the URI of the
    top window the request was made from. *)
Record channel : Type := { channelURI : nsIURI; topWindowURI : option nsIURI }.

Definition thirdPartyChannel (c : channel) : completion string bool :=
  match topWindowURI c with
  | None => Throw "NS_ERROR_INVALID_ARG"%string
  | Some top =>
      match thirdPartyBaseDomain (channelURI c), thirdPartyBaseDomain top with
      | Return a, Return b => Return (negb (String.eqb a b))
      | Throw e, _ => Throw e
      | _, Throw e => Throw e
      end
  end.

(** The host of a URL: what follows the scheme, up to the port or the
    path. *)
Fixpoint authority (s : string) : string :=
  match s with
  | EmptyString => EmptyString
  | String c rest =>
      if (Ascii.eqb c "/" || Ascii.eqb c ":")%bool then EmptyString
      else String c (authority rest)
  end.

Definition makeURI (url : string) : completion string nsIURI :=
  if String.prefix "http://" url
  then Return {| spec := url;
                 host := authority (String.substring 7 (String.length url - 7) url) |}
  else Throw "NS_ERROR_MALFORMED_URI"%string.

Definition platform : Platform :=
  {| exn := string;
     nsIChannel := channel;
     URI := channelURI;
     eTLD_getPublicSuffix := publicSuffix;
     eTLD_getBaseDomain := baseDomain;
     ThirdPartyUtil_getBaseDomain := thirdPartyBaseDomain;
     ThirdPartyUtil_isThirdPartyChannel := thirdPartyChannel;
     ABPUtils_makeURI := makeURI |}.

(** A URI given by its host. *)
Definition uriOf (h : string) : nsIURI :=
  {| spec := ("http://" ++ h ++ "/")%string; host := h |}.

(** Callbacks.  The caller's state counts the invocations. *)
Definition never (_ : string) (count : nat) : bool * nat := (false, S count).

Definition isString (wanted : string) (s : string) (count : nat) : bool * nat :=
  (String.eqb s wanted, S count).

Definition start : @world platform nat := {| user := 0; trace := [] |}.

(** The test request of [fakeThirdPartyURLs], on a channel without a
    load context. *)
Definition fixtureChannel : channel :=
  {| channelURI :=
       {| spec := "http://localhost:8099/test-request-3rd-party-cookieblock.sjs";
          host := "localhost" |};
     topWindowURI := None |}.

(** A request to [example.com] on a channel without a load context. *)
Definition orphanChannel : channel :=
  {| channelURI := uriOf "example.com"; topWindowURI := None |}.

End TestPlatform.

(* ================================================================== *)
(** ** More vocabulary: the whole chain, and replaying the callback *)

(** All the strings the loop of [checkEachParentDomainString] can test,
    in the order it tests them: the candidates whose array is longer
    than the public suffix. *)
Definition parentChain (uri : nsIURI) (ignoreSelf : option bool)
  (suffix : string) : list string :=
  map (candidate (startArray uri ignoreSelf))
      (seq 0 (length (startArray uri ignoreSelf) - labelCount suffix)).

(** The callback run over a list of strings, one after the other, each
    invocation in the state the previous one left: the answers, and the
    final state. *)
Fixpoint replay {St : Type} (stringCallback : string -> St -> bool * St)
  (args : list string) (st : St) : list bool * St :=
  match args with
  | [] => ([], st)
  | arg :: rest =>
      let (result, st') := stringCallback arg st in
      let (results, final) := replay stringCallback rest st' in
      (result :: results, final)
  end.

(** An event that is an invocation of the callback. *)
Definition isCallback `{Platform} (ev : event) : bool :=
  match ev with
  | StringCallback _ _ => true
  | _ => false
  end.

(* ================================================================== *)
(** ** lib/utils.js: windows of channels *)

Module Windows.

(** A JavaScript exception, reduced to its [name]. *)
Record error : Type := { name : string }.

(** What reading a property of [null] throws. *)
Definition TypeError : error := {| name := "TypeError" |}.

Section Channels.

(** [nsIDOMWindow], with its [top] attribute. *)
Variable window : Type.
Variable top : window -> window.

(** The XPCOM objects [getWindowForChannel] walks through.  Reading an
    attribute inside a [try] block either gives a value, which may be
    [null] ([None]), or throws; [getInterface(Ci.nsILoadContext)] gives a
    load context or throws. *)
Record nsILoadContext : Type :=
  { associatedWindow : completion error (option window) }.

Record nsIInterfaceRequestor : Type :=
  { getInterface : completion error nsILoadContext }.

Record nsILoadGroup : Type :=
  { groupCallbacks : completion error (option nsIInterfaceRequestor) }.

Record nsIChannel : Type :=
  { URI : nsIURI;
    notificationCallbacks : completion error (option nsIInterfaceRequestor);
    loadGroup : completion error (option nsILoadGroup) }.

(** The console: one entry per call of [console.log], with its
    arguments. *)
Definition console : Type := list (list string).

(** The first [try] block (line 28): the value given to [nc], or the
    exception that sends control to the [catch] clause.
    [channel.notificationCallbacks] is read once for the test and once
    more for the value; with it [null], [channel.loadGroup] is read, and
    a [null] load group makes the read of its [notificationCallbacks]
    throw. *)
Definition firstCallbacks (channel : nsIChannel)
  : completion error (option nsIInterfaceRequestor) :=
  match notificationCallbacks channel with
  | Throw e => Throw e
  | Return (Some _) => notificationCallbacks channel
  | Return None =>
      match loadGroup channel with
      | Throw e => Throw e
      | Return None => Throw TypeError
      | Return (Some group) => groupCallbacks group
      end
  end.

(** [channel.loadGroup.notificationCallbacks.getInterface(Ci.nsILoadContext)]
    (lines 43-44). *)
Definition groupLoadContext (channel : nsIChannel)
  : completion error nsILoadContext :=
  match loadGroup channel with
  | Throw e => Throw e
  | Return None => Throw TypeError
  | Return (Some group) =>
      match groupCallbacks group with
      | Throw e => Throw e
      | Return None => Throw TypeError
      | Return (Some callbacks) => getInterface callbacks
      end
  end.

(** [getWindowForChannel] (line 25): the completion ([null] is [None])
    and what was written to the console. *)
Definition getWindowForChannel (channel : nsIChannel)
  : completion error (option window) * console :=
  match firstCallbacks channel with
  | Throw _ =>
      (Return None,
       [[("ERROR missing loadgroup notificationCallbacks for "
            ++ spec (URI channel))%string]])
  | Return None =>
      (Return None,
       [[("ERROR no loadgroup notificationCallbacks for "
            ++ spec (URI channel))%string]])
  | Return (Some nc) =>
      let loadContext :=
        match getInterface nc with
        | Return context => Return context
        | Throw _ => groupLoadContext channel
        end in
      match loadContext with
      | Throw ex =>
          (Return None,
           [["ERROR missing loadcontext"%string; spec (URI channel); name ex]])
      | Return context =>
          match associatedWindow context with
          | Throw e => (Throw e, [])
          | Return None =>
              (Return None,
               [["WARN no associated window for"%string; spec (URI channel)]])
          | Return (Some contentWindow) => (Return (Some contentWindow), [])
          end
      end
  end.

(** [getTopWindowForChannel] (line 61). *)
Definition getTopWindowForChannel (channel : nsIChannel)
  : completion error (option window) * console :=
  match getWindowForChannel channel with
  | (Return (Some win), out) => (Return (Some (top win)), out)
  | (Return None, out) => (Return None, out)
  | (Throw e, out) => (Throw e, out)
  end.

End Channels.

End Windows.

(* ================================================================== *)
(** ** lib/utils.js: windows of tabs *)

Module Tabs.

(** A high-level SDK tab, reduced to its [id]. *)
Record sdkTab : Type := { id : string }.

Section TabUtils.

(** The low-level tabs and what [sdk/tabs/utils] tells about them. *)
Variables tab window : Type.
Variable getTabId : tab -> string.
Variable getTabContentWindow : tab -> window.

(** [getWindowForSdkTab] (line 103), on the array [tabs] that
    [tabUtils.getTabs()] returned; [null] is [None]. *)
Fixpoint getWindowForSdkTab (tabs : list tab) (sdkTab : sdkTab)
  : option window :=
  match tabs with
  | [] => None
  | tab :: rest =>
      if String.eqb (id sdkTab) (getTabId tab)
      then Some (getTabContentWindow tab)
      else getWindowForSdkTab rest sdkTab
  end.

(** [getAllWindows] (line 85), on the same array. *)
Definition getAllWindows (tabs : list tab) : list window :=
  map (fun tab => getTabContentWindow tab) tabs.

End TabUtils.

End Tabs.

(* ================================================================== *)
(** ** Sample channels and tabs *)

Module Samples.

Import Windows.

(** Windows are numbered; the top window of every window is window 0. *)
Definition topOf (_ : nat) : nat := 0.

Definition contextOf (win : nat) : nsILoadContext nat :=
  {| associatedWindow := Return (Some win) |}.

Definition refusing : nsIInterfaceRequestor nat :=
  {| getInterface := Throw {| name := "NS_NOINTERFACE" |} |}.

Definition giving (win : nat) : nsIInterfaceRequestor nat :=
  {| getInterface := Return (contextOf win) |}.

Definition groupOf (callbacks : nsIInterfaceRequestor nat) : nsILoadGroup nat :=
  {| groupCallbacks := Return (Some callbacks) |}.

(** A channel whose own callbacks give the load context of window 7. *)
Definition direct : nsIChannel nat :=
  {| URI := TestPlatform.uriOf "example.com";
     notificationCallbacks := Return (Some (giving 7));
     loadGroup := Return None |}.

(** A channel whose own callbacks refuse and whose load group gives the
    load context of window 3. *)
Definition viaGroup : nsIChannel nat :=
  {| URI := TestPlatform.uriOf "example.com";
     notificationCallbacks := Return (Some refusing);
     loadGroup := Return (Some (groupOf (giving 3))) |}.

(** Three open tabs: identifier and content window. *)
Definition openTabs : list (string * nat) :=
  [("-1-1", 10); ("-1-2", 20); ("-1-2", 30)]%string.

End Samples.

(* ================================================================== *)
(** * Properties *)

Unset Implicit Arguments.

(* ------------------------------------------------------------------ *)
(** *** Facts about [split], [join] and [indexOf] *)

Lemma split_nonempty sep s : JS.split sep s <> [].
Proof.
  destruct s as [|c rest]; simpl; [discriminate|].
  destruct (Ascii.eqb c sep); [discriminate|].
  destruct (JS.split sep rest); discriminate.
Qed.

Lemma split_pieces_lack sep s : Forall (JS.lacks sep) (JS.split sep s).
Proof.
  induction s as [|c rest IH]; simpl.
  - repeat constructor.
  - destruct (Ascii.eqb c sep) eqn:E.
    + constructor; [exact I | exact IH].
    + destruct (JS.split sep rest) as [|piece pieces].
      * constructor; [|constructor]. simpl. split; [|exact I].
        intros ->. rewrite Ascii.eqb_refl in E. discriminate.
      * inversion IH; subst. constructor; [|assumption].
        simpl. split; [|assumption].
        intros ->. rewrite Ascii.eqb_refl in E. discriminate.
Qed.

(** Joining what was split gives the string back. *)
Lemma join_split sep s : JS.join (String sep EmptyString) (JS.split sep s) = s.
Proof.
  induction s as [|c rest IH]; simpl; [reflexivity|].
  destruct (Ascii.eqb c sep) eqn:E.
  - apply Ascii.eqb_eq in E. subst c.
    destruct (JS.split sep rest) as [|p ps] eqn:S.
    + exfalso. exact (split_nonempty _ _ S).
    + simpl in *. now rewrite IH.
  - destruct (JS.split sep rest) as [|p ps] eqn:S.
    + exfalso. exact (split_nonempty _ _ S).
    + simpl in *. destruct ps; simpl in *; now rewrite <- IH.
Qed.

Lemma split_app_lacks sep x s :
  JS.lacks sep x ->
  JS.split sep (x ++ String sep s)%string = x :: JS.split sep s.
Proof.
  induction x as [|c x IH]; simpl; intros H.
  - now rewrite Ascii.eqb_refl.
  - destruct H as [Hc Hx].
    destruct (Ascii.eqb c sep) eqn:E.
    + apply Ascii.eqb_eq in E. contradiction.
    + now rewrite (IH Hx).
Qed.

Lemma split_lacks sep x : JS.lacks sep x -> JS.split sep x = [x].
Proof.
  induction x as [|c x IH]; simpl; intros H; [reflexivity|].
  destruct H as [Hc Hx].
  destruct (Ascii.eqb c sep) eqn:E.
  - apply Ascii.eqb_eq in E. contradiction.
  - now rewrite (IH Hx).
Qed.

(** Splitting what was joined gives the array back, for a non-empty array
    whose elements do not contain the separator. *)
Lemma split_join sep a :
  a <> [] -> Forall (JS.lacks sep) a ->
  JS.split sep (JS.join (String sep EmptyString) a) = a.
Proof.
  induction a as [|x tl IH]; intros Hne Hall; [congruence|].
  inversion Hall as [|? ? Hx Htl]; subst.
  destruct tl as [|y tl'].
  - simpl. now apply split_lacks.
  - change (JS.join (String sep EmptyString) (x :: y :: tl'))
      with (x ++ String sep (JS.join (String sep EmptyString) (y :: tl')))%string.
    rewrite split_app_lacks by assumption.
    f_equal. apply IH; [discriminate | assumption].
Qed.

Lemma length_append (s t : string) :
  String.length (s ++ t)%string = String.length s + String.length t.
Proof. induction s; simpl; congruence. Qed.

(** A joined array is strictly longer, as a string, than the join of its
    tail, as soon as that tail is not empty. *)
Lemma join_tail_shorter sep x y tl :
  String.length (JS.join (String sep EmptyString) (y :: tl)) <
  String.length (JS.join (String sep EmptyString) (x :: y :: tl)).
Proof.
  change (JS.join (String sep EmptyString) (x :: y :: tl))
    with (x ++ String sep (JS.join (String sep EmptyString) (y :: tl)))%string.
  rewrite length_append. simpl. lia.
Qed.

Lemma indexOf_ge a x : (-1 <= JS.indexOf a x)%Z.
Proof.
  induction a as [|y tl IH]; simpl; [lia|].
  destruct (String.eqb y x); [lia|].
  destruct (JS.indexOf tl x =? -1)%Z eqn:E; lia.
Qed.

Lemma indexOf_In a x : JS.indexOf a x <> (-1)%Z <-> In x a.
Proof.
  induction a as [|y tl IH]; simpl.
  - split; [congruence | tauto].
  - destruct (String.eqb y x) eqn:E.
    + apply String.eqb_eq in E. split; [auto | discriminate].
    + apply String.eqb_neq in E.
      pose proof (indexOf_ge tl x) as Hge.
      destruct (JS.indexOf tl x =? -1)%Z eqn:E1.
      * apply Z.eqb_eq in E1. split; [congruence|].
        intros [H|H]; [congruence|]. apply IH in H. congruence.
      * apply Z.eqb_neq in E1. split; [intros _; right; now apply IH | lia].
Qed.

(* ------------------------------------------------------------------ *)
(** *** Candidates *)

Lemma candidate_cons x tl i : candidate (x :: tl) (S i) = candidate tl i.
Proof. reflexivity. Qed.

Lemma candidate_labels hostArray i :
  Forall (JS.lacks dot) hostArray -> i < length hostArray ->
  labelCount (candidate hostArray i) = length hostArray - i.
Proof.
  intros Hall Hi. unfold labelCount, candidate.
  change "."%string with (String dot EmptyString).
  rewrite split_join.
  - apply length_skipn.
  - intros E. apply (f_equal (@length string)) in E.
    rewrite length_skipn in E. simpl in E. lia.
  - clear Hi. revert hostArray Hall.
    induction i as [|i IH]; intros [|x tl] Hall; simpl; auto.
    inversion Hall; subst. now apply IH.
Qed.

(** Later candidates are strictly shorter strings. *)
Lemma candidate_length_decreases hostArray i j :
  i < j -> j < length hostArray ->
  String.length (candidate hostArray j) < String.length (candidate hostArray i).
Proof.
  revert i j. induction hostArray as [|x tl IH]; intros i j Hij Hj; simpl in Hj; [lia|].
  destruct j as [|j]; [lia|]. rewrite candidate_cons.
  destruct i as [|i].
  - assert (Hstep : forall y l,
      String.length (candidate l 0) < String.length (candidate (y :: l) 0) \/ l = []).
    { intros y [|z l]; [now right | left]. apply join_tail_shorter. }
    destruct j as [|j].
    + destruct (Hstep x tl) as [H|H]; [exact H | subst; simpl in Hj; lia].
    + assert (String.length (candidate tl (S j)) < String.length (candidate tl 0))
        by (apply IH; lia).
      destruct (Hstep x tl) as [H'|H']; [lia | subst; simpl in Hj; lia].
  - rewrite candidate_cons. apply IH; lia.
Qed.

Lemma candidates_NoDup hostArray n :
  n <= length hostArray -> NoDup (map (candidate hostArray) (seq 0 n)).
Proof.
  intros Hn. apply NoDup_nth_error. intros i j Hi E.
  rewrite length_map, length_seq in Hi.
  destruct (Nat.lt_ge_cases j n) as [Hj|Hj].
  - rewrite !nth_error_map in E.
    rewrite !nth_error_seq in E.
    apply Nat.ltb_lt in Hi as Hi'. apply Nat.ltb_lt in Hj as Hj'.
    rewrite Hi', Hj' in E. simpl in E. injection E as E.
    destruct (Nat.lt_trichotomy i j) as [H|[H|H]]; [|exact H|].
    + pose proof (candidate_length_decreases hostArray i j H ltac:(lia)). rewrite E in *. lia.
    + pose proof (candidate_length_decreases hostArray j i H ltac:(lia)). rewrite E in *. lia.
  - exfalso.
    assert (nth_error (map (candidate hostArray) (seq 0 n)) j = None)
      by (apply nth_error_None; rewrite length_map, length_seq; lia).
    assert (nth_error (map (candidate hostArray) (seq 0 n)) i <> None)
      by (apply nth_error_Some; rewrite length_map, length_seq; lia).
    congruence.
Qed.

(* ------------------------------------------------------------------ *)
(** *** Traces *)

Section Traces.

Context `{P : Platform}.
Variable St : Type.

Lemma performed_app A (m : M St A) (w : world St) (new : list event) :
  trace (snd (m w)) = trace w ++ new -> performed m w = new.
Proof.
  unfold performed. intros ->.
  induction (trace w) as [|ev t IH]; simpl; auto.
Qed.

Lemma callbackArgs_app (s t : list event) :
  callbackArgs (s ++ t) = callbackArgs s ++ callbackArgs t.
Proof.
  induction s as [|ev s IH]; simpl; [reflexivity|].
  destruct ev; simpl; now rewrite ?IH.
Qed.

Lemma callbackResults_app (s t : list event) :
  callbackResults (s ++ t) = callbackResults s ++ callbackResults t.
Proof.
  induction s as [|ev s IH]; simpl; [reflexivity|].
  destruct ev; simpl; now rewrite ?IH.
Qed.

Lemma walkEvents_cons x tl j hit :
  StringCallback (candidate (x :: tl) 0) false :: walkEvents tl j hit
  = walkEvents (x :: tl) (S j) hit.
Proof.
  unfold walkEvents. simpl. f_equal.
  rewrite <- seq_shift, map_map. reflexivity.
Qed.

Lemma walkEvents_args hostArray j hit :
  callbackArgs (walkEvents hostArray j hit)
  = map (candidate hostArray) (seq 0 (if hit then S j else j)).
Proof.
  unfold walkEvents. rewrite callbackArgs_app.
  assert (E : forall l, callbackArgs
              (map (fun i => StringCallback (candidate hostArray i) false) l)
            = map (candidate hostArray) l)
    by (induction l; simpl; congruence).
  rewrite E. destruct hit; simpl callbackArgs.
  - rewrite seq_S, map_app. reflexivity.
  - now rewrite app_nil_r.
Qed.

Lemma walkEvents_results hostArray j hit :
  callbackResults (walkEvents hostArray j hit)
  = repeat false j ++ (if hit then [true] else []).
Proof.
  unfold walkEvents. rewrite callbackResults_app. f_equal.
  - generalize 0. induction j as [|j IH]; intros s; simpl; [reflexivity|].
    now rewrite IH.
  - now destruct hit.
Qed.

(** What a run of the loop does: it tests the candidates in order, stops
    at the first true answer, and otherwise stops when the array is down
    to [suffixLength] elements. *)
Lemma eachParent_run (stringCallback : string -> St -> bool * St)
  (suffixLength : nat) (hostArray : list string) (w : world St) :
  exists (j : nat) (hit : bool),
    fst (eachParent stringCallback suffixLength hostArray w) = Return hit /\
    trace (snd (eachParent stringCallback suffixLength hostArray w))
      = trace w ++ walkEvents hostArray j hit /\
    (if hit then j < length hostArray - suffixLength
     else j = length hostArray - suffixLength) /\
    (hit = true ->
     exists st, fst (stringCallback (candidate hostArray j) st) = true).
Proof.
  revert w. induction hostArray as [|x tl IH]; intros w.
  - exists 0, false. simpl. rewrite app_nil_r. repeat split; auto. discriminate.
  - cbn [eachParent].
    destruct (Z.of_nat (length (x :: tl)) - Z.of_nat suffixLength >? 0)%Z eqn:G.
    + apply Z.gtb_lt in G. simpl length in *.
      unfold bind, invoke.
      destruct (stringCallback (JS.join "." (x :: tl)) (user w)) as [result st] eqn:Ecb.
      destruct result.
      * exists 0, true. cbn [fst snd trace ret walkEvents seq map app].
        split; [reflexivity|]. split; [reflexivity|]. split; [lia|].
        intros _. exists (user w). unfold candidate. cbn [skipn]. now rewrite Ecb.
      * destruct (IH {| user := st;
                        trace := trace w ++ [StringCallback (JS.join "." (x :: tl)) false] |})
          as (j & hit & Hr & Ht & Hj & Hcb).
        exists (S j), hit. split; [exact Hr|]. split; [|split].
        -- rewrite Ht. cbn [trace]. rewrite <- app_assoc. f_equal.
           apply walkEvents_cons.
        -- destruct hit; lia.
        -- rewrite candidate_cons. exact Hcb.
    + exists 0, false. cbn [fst snd trace ret walkEvents seq map app].
      rewrite app_nil_r. split; [reflexivity|]. split; [reflexivity|].
      split; [|discriminate].
      rewrite Z.gtb_ltb in G. apply Z.ltb_ge in G. simpl length in *. lia.
Qed.

(** The same, for the whole function, when the platform knows the public
    suffix. *)
Lemma check_run uri stringCallback ignoreSelf (w : world St) suffix :
  eTLD_getPublicSuffix uri = Return suffix ->
  exists (j : nat) (hit : bool),
    fst (checkEachParentDomainString uri stringCallback ignoreSelf w) = Return hit /\
    performed (checkEachParentDomainString uri stringCallback ignoreSelf) w
      = GetPublicSuffix uri :: walkEvents (startArray uri ignoreSelf) j hit /\
    (if hit then j < length (startArray uri ignoreSelf) - labelCount suffix
     else j = length (startArray uri ignoreSelf) - labelCount suffix) /\
    (hit = true ->
     exists st, fst (stringCallback (candidate (startArray uri ignoreSelf) j) st) = true).
Proof.
  intros Hs.
  destruct (eachParent_run stringCallback (labelCount suffix)
              (startArray uri ignoreSelf) (record (GetPublicSuffix uri) w))
    as (j & hit & Hr & Ht & Hj & Hcb).
  exists j, hit.
  assert (E : checkEachParentDomainString uri stringCallback ignoreSelf w
              = eachParent stringCallback (labelCount suffix)
                  (startArray uri ignoreSelf) (record (GetPublicSuffix uri) w)).
  { unfold checkEachParentDomainString, bind, service. rewrite Hs. reflexivity. }
  split; [now rewrite E|]. split; [|split; [exact Hj | exact Hcb]].
  apply performed_app. rewrite E, Ht. cbn [record trace].
  now rewrite <- app_assoc.
Qed.

(** And when it does not: the exception leaves the function before the
    loop is reached. *)
Lemma check_throw uri stringCallback ignoreSelf (w : world St) e :
  eTLD_getPublicSuffix uri = Throw e ->
  checkEachParentDomainString uri stringCallback ignoreSelf w
  = (Throw e, record (GetPublicSuffix uri) w).
Proof.
  intros Hs. unfold checkEachParentDomainString, bind, service.
  now rewrite Hs.
Qed.

Lemma tested_run uri stringCallback ignoreSelf (w : world St) suffix :
  eTLD_getPublicSuffix uri = Return suffix ->
  exists n,
    tested uri stringCallback ignoreSelf w
      = map (candidate (startArray uri ignoreSelf)) (seq 0 n) /\
    n <= length (startArray uri ignoreSelf) - labelCount suffix /\
    (fst (checkEachParentDomainString uri stringCallback ignoreSelf w) = Return false ->
     n = length (startArray uri ignoreSelf) - labelCount suffix).
Proof.
  intros Hs.
  destruct (check_run uri stringCallback ignoreSelf w suffix Hs)
    as (j & hit & Hr & Hp & Hj & _).
  exists (if hit then S j else j). unfold tested. rewrite Hp.
  cbn [callbackArgs]. rewrite walkEvents_args. split; [reflexivity|].
  rewrite Hr. destruct hit; split; try lia; intros [=].
Qed.

Lemma startArray_lacks uri ignoreSelf :
  Forall (JS.lacks dot) (startArray uri ignoreSelf).
Proof.
  unfold startArray. pose proof (split_pieces_lack dot (host uri)) as H.
  destruct (orFalse ignoreSelf); [|exact H].
  destruct (JS.split dot (host uri)); simpl; [constructor|].
  now inversion H.
Qed.

End Traces.

(* ================================================================== *)
(** ** checkEachParentDomainString *)

Section CheckEachParentDomainString.

Context `{P : Platform}.
Variable St : Type.

Implicit Types (uri : nsIURI) (stringCallback : string -> St -> bool * St)
  (ignoreSelf : option bool) (w : world St) (suffix : string).

Lemma nth_error_map_seq A (f : nat -> A) n i a :
  nth_error (map f (seq 0 n)) i = Some a -> i < n /\ a = f i.
Proof.
  rewrite nth_error_map, nth_error_seq.
  destruct (i <? n)%nat eqn:E; simpl; [|discriminate].
  apply Nat.ltb_lt in E. intros [= <-]. auto.
Qed.

(** Every tested string is a candidate whose array is still longer than
    the public suffix. *)
Lemma tested_inv uri stringCallback ignoreSelf w suffix arg :
  eTLD_getPublicSuffix uri = Return suffix ->
  In arg (tested uri stringCallback ignoreSelf w) ->
  exists i, arg = candidate (startArray uri ignoreSelf) i /\
            i < length (startArray uri ignoreSelf) - labelCount suffix.
Proof.
  intros Hs Hin.
  destruct (tested_run St uri stringCallback ignoreSelf w suffix Hs) as (n & Ht & Hn & _).
  rewrite Ht in Hin. apply in_map_iff in Hin as (i & <- & Hi).
  apply in_seq in Hi. exists i. split; [reflexivity | lia].
Qed.

(** When the public suffix cannot be had, nothing is tested. *)
Lemma tested_throw uri stringCallback ignoreSelf w e :
  eTLD_getPublicSuffix uri = Throw e ->
  performed (checkEachParentDomainString uri stringCallback ignoreSelf) w
  = [GetPublicSuffix uri].
Proof.
  intros Hs. apply performed_app.
  now rewrite (check_throw St uri stringCallback ignoreSelf w e Hs).
Qed.

(** C1 (as amended).  [checkEachParentDomainString] never invokes the
    callback on a string with as few labels as the public suffix: the
    loop stops before the string whose label count equals the
    public-suffix label count, not before the base domain.  The base
    domain (one label more than the suffix) is tested, as the last
    string of the run, whenever the walk starts above the suffix and no
    test of a string with more labels than the base domain answered
    true; the answer to the base domain itself may be either. *)
Theorem check_stops_at_public_suffix uri stringCallback ignoreSelf w suffix :
  eTLD_getPublicSuffix uri = Return suffix ->
  (forall arg, In arg (tested uri stringCallback ignoreSelf w) ->
               labelCount suffix < labelCount arg) /\
  (labelCount suffix < length (startArray uri ignoreSelf) ->
   (forall i arg,
      nth_error (tested uri stringCallback ignoreSelf w) i = Some arg ->
      labelCount suffix + 1 < labelCount arg ->
      nth_error (answers uri stringCallback ignoreSelf w) i = Some false) ->
   exists earlier final,
     tested uri stringCallback ignoreSelf w = earlier ++ [final] /\
     labelCount final = labelCount suffix + 1).
Proof.
  intros Hs. split.
  - intros arg Hin.
    destruct (tested_inv uri stringCallback ignoreSelf w suffix arg Hs Hin)
      as (i & -> & Hi).
    rewrite candidate_labels; [lia | apply startArray_lacks | lia].
  - intros Hlen Hearlier.
    destruct (check_run St uri stringCallback ignoreSelf w suffix Hs)
      as (j & hit & _ & Hp & Hj & _).
    pose proof (startArray_lacks uri ignoreSelf) as Hl.
    unfold tested, answers in *. rewrite Hp in *.
    cbn [callbackArgs callbackResults] in *.
    rewrite walkEvents_args in *. rewrite walkEvents_results in Hearlier.
    destruct hit.
    + exists (map (candidate (startArray uri ignoreSelf)) (seq 0 j)),
             (candidate (startArray uri ignoreSelf) j).
      split; [now rewrite seq_S, map_app|].
      rewrite candidate_labels by (assumption || lia).
      assert (Hnot : ~ labelCount suffix + 1
                       < labelCount (candidate (startArray uri ignoreSelf) j)).
      { intros Habove.
        specialize (Hearlier j (candidate (startArray uri ignoreSelf) j)).
        rewrite nth_error_map, nth_error_seq in Hearlier.
        replace (j <? S j)%nat with true in Hearlier
          by (symmetry; apply Nat.ltb_lt; lia).
        specialize (Hearlier eq_refl Habove).
        rewrite nth_error_app2 in Hearlier by (rewrite repeat_length; lia).
        rewrite repeat_length, Nat.sub_diag in Hearlier. discriminate. }
      rewrite candidate_labels in Hnot by (assumption || lia). lia.
    + destruct j as [|n]; [lia|].
      exists (map (candidate (startArray uri ignoreSelf)) (seq 0 n)),
             (candidate (startArray uri ignoreSelf) n).
      split; [now rewrite seq_S, map_app|].
      rewrite candidate_labels by (assumption || lia). lia.
Qed.

(** C2.  For a URI with host [radio.bbc.co.uk], public suffix [co.uk] and
    a callback that always answers false, the callback is invoked
    exactly twice, on [radio.bbc.co.uk] and then on [bbc.co.uk]; it is
    not invoked on [co.uk], and the function returns false. *)
Theorem check_radio_bbc_co_uk uri stringCallback w :
  host uri = "radio.bbc.co.uk"%string ->
  eTLD_getPublicSuffix uri = Return "co.uk"%string ->
  (forall s st, fst (stringCallback s st) = false) ->
  tested uri stringCallback None w = ["radio.bbc.co.uk"; "bbc.co.uk"]%string /\
  ~ In "co.uk"%string (tested uri stringCallback None w) /\
  fst (checkEachParentDomainString uri stringCallback None w) = Return false.
Proof.
  intros Hh Hs Hf.
  destruct (check_run St uri stringCallback None w _ Hs)
    as (j & hit & Hr & Hp & Hj & Hcb).
  destruct hit.
  { destruct (Hcb eq_refl) as [st H]. rewrite Hf in H. discriminate. }
  unfold tested. rewrite Hp, Hr.
  unfold startArray in *. cbn [orFalse] in *. rewrite Hh in *.
  subst j. vm_compute.
  repeat split. intros [H|[H|[]]]; discriminate.
Qed.

(** C4.  The callback's answers in a run are a row of false answers,
    followed by one true answer exactly when the function returns true:
    a true answer is the last invocation, and the function then returns
    true.  No string is tested twice. *)
Theorem check_short_circuits uri stringCallback ignoreSelf w :
  NoDup (tested uri stringCallback ignoreSelf w) /\
  exists n,
    (answers uri stringCallback ignoreSelf w = repeat false n ++ [true] /\
     fst (checkEachParentDomainString uri stringCallback ignoreSelf w) = Return true)
    \/
    (answers uri stringCallback ignoreSelf w = repeat false n /\
     fst (checkEachParentDomainString uri stringCallback ignoreSelf w) <> Return true).
Proof.
  destruct (eTLD_getPublicSuffix uri) as [suffix|e] eqn:Hs.
  - destruct (check_run St uri stringCallback ignoreSelf w suffix Hs)
      as (j & hit & Hr & Hp & Hj & _).
    split.
    + unfold tested. rewrite Hp. cbn [callbackArgs]. rewrite walkEvents_args.
      apply candidates_NoDup. destruct hit; lia.
    + exists j. unfold answers. rewrite Hp, Hr. cbn [callbackResults].
      rewrite walkEvents_results. destruct hit.
      * left. auto.
      * right. rewrite app_nil_r. split; [reflexivity | discriminate].
  - unfold tested, answers.
    rewrite (tested_throw uri stringCallback ignoreSelf w e Hs).
    rewrite (check_throw St uri stringCallback ignoreSelf w e Hs).
    split; [constructor|]. exists 0. right. split; [reflexivity | discriminate].
Qed.

(** With [ignoreSelf], no tested string is the host itself. *)
Lemma ignoreSelf_skips_host uri stringCallback w :
  ~ In (host uri) (tested uri stringCallback (Some true) w).
Proof.
  destruct (eTLD_getPublicSuffix uri) as [suffix|e] eqn:Hs.
  - intros Hin.
    destruct (tested_inv uri stringCallback (Some true) w suffix _ Hs Hin)
      as (i & E & Hi).
    unfold startArray in *. cbn [orFalse] in *.
    pose proof (join_split dot (host uri)) as Hj.
    destruct (JS.split dot (host uri)) as [|x tl] eqn:Hsp.
    + now apply split_nonempty in Hsp.
    + cbn [JS.shift List.tl] in *.
      pose proof (candidate_length_decreases (x :: tl) 0 (S i)
                    ltac:(lia) ltac:(simpl; lia)) as Hlt.
      rewrite candidate_cons, <- E in Hlt.
      unfold candidate in Hlt. cbn [skipn] in Hlt.
      change "."%string with (String dot EmptyString) in Hlt.
      rewrite Hj in Hlt. lia.
  - unfold tested. rewrite (tested_throw uri stringCallback (Some true) w e Hs).
    cbn. tauto.
Qed.

(** C5 (as amended).  With [ignoreSelf = true] the callback is never
    invoked on the host itself; and for a host with at least two labels
    more than its public suffix, the first string it is invoked on is
    the immediate parent of the host. *)
Theorem ignoreSelf_starts_at_parent uri stringCallback w suffix :
  eTLD_getPublicSuffix uri = Return suffix ->
  labelCount suffix + 2 <= labelCount (host uri) ->
  ~ In (host uri) (tested uri stringCallback (Some true) w) /\
  exists rest,
    tested uri stringCallback (Some true) w = immediateParent (host uri) :: rest.
Proof.
  intros Hs Hlen. split; [apply ignoreSelf_skips_host|].
  destruct (check_run St uri stringCallback (Some true) w suffix Hs)
    as (j & hit & Hr & Hp & Hj & _).
  assert (Hsa : length (startArray uri (Some true)) = labelCount (host uri) - 1).
  { unfold startArray, labelCount. cbn [orFalse].
    destruct (JS.split dot (host uri)); simpl; lia. }
  unfold tested. rewrite Hp. cbn [callbackArgs]. rewrite walkEvents_args.
  assert (Hn : exists n, (if hit then S j else j) = S n)
    by (destruct hit; [now exists j | exists (j - 1); lia]).
  destruct Hn as [n ->]. cbn [seq map].
  eexists. f_equal.
Qed.

(** C6.  In the sequence of tested strings every entry has strictly
    fewer labels than the one before it (exactly one fewer), and no
    entry has fewer labels than the base domain, which has one label
    more than the public suffix. *)
Theorem tested_chain_invariant uri stringCallback ignoreSelf w suffix :
  eTLD_getPublicSuffix uri = Return suffix ->
  (forall i a b,
     nth_error (tested uri stringCallback ignoreSelf w) i = Some a ->
     nth_error (tested uri stringCallback ignoreSelf w) (S i) = Some b ->
     labelCount b < labelCount a /\ labelCount a = S (labelCount b)) /\
  (forall a, In a (tested uri stringCallback ignoreSelf w) ->
             labelCount suffix + 1 <= labelCount a).
Proof.
  intros Hs.
  destruct (tested_run St uri stringCallback ignoreSelf w suffix Hs) as (n & Ht & Hn & _).
  pose proof (startArray_lacks uri ignoreSelf) as Hl.
  split.
  - intros i a b Ha Hb. rewrite Ht in Ha, Hb.
    apply nth_error_map_seq in Ha as [Hi ->].
    apply nth_error_map_seq in Hb as [Hi' ->].
    rewrite !candidate_labels by (assumption || lia). lia.
  - intros a Hin.
    destruct (tested_inv uri stringCallback ignoreSelf w suffix a Hs Hin)
      as (i & -> & Hi).
    rewrite candidate_labels by (assumption || lia). lia.
Qed.

(** C7.  When the platform cannot give the public suffix of the host,
    [checkEachParentDomainString] ends with the platform's exception;
    the callback is not invoked and the caller's state is unchanged. *)
Theorem check_propagates_resolution_error uri stringCallback ignoreSelf w e :
  eTLD_getPublicSuffix uri = Throw e ->
  fst (checkEachParentDomainString uri stringCallback ignoreSelf w) = Throw e /\
  tested uri stringCallback ignoreSelf w = [] /\
  user (snd (checkEachParentDomainString uri stringCallback ignoreSelf w)) = user w.
Proof.
  intros Hs. unfold tested.
  rewrite (tested_throw uri stringCallback ignoreSelf w e Hs).
  rewrite (check_throw St uri stringCallback ignoreSelf w e Hs).
  repeat split.
Qed.

(** C10.  For a host with exactly as many labels as its public suffix,
    [checkEachParentDomainString] returns false and never invokes the
    callback, whatever [ignoreSelf] is. *)
Theorem check_bare_public_suffix uri stringCallback ignoreSelf w suffix :
  eTLD_getPublicSuffix uri = Return suffix ->
  labelCount (host uri) = labelCount suffix ->
  fst (checkEachParentDomainString uri stringCallback ignoreSelf w) = Return false /\
  tested uri stringCallback ignoreSelf w = [] /\
  user (snd (checkEachParentDomainString uri stringCallback ignoreSelf w)) = user w.
Proof.
  intros Hs Hlen.
  assert (E : checkEachParentDomainString uri stringCallback ignoreSelf w
              = (Return false, record (GetPublicSuffix uri) w)).
  { unfold checkEachParentDomainString, bind, service. rewrite Hs.
    fold (labelCount suffix). rewrite <- Hlen. unfold labelCount.
    destruct (JS.split dot (host uri)) as [|x tl] eqn:Hsp.
    - now apply split_nonempty in Hsp.
    - destruct (orFalse ignoreSelf); cbn [JS.shift List.tl eachParent].
      + destruct tl as [|y tl']; [reflexivity|]. cbn [eachParent].
        replace (Z.of_nat (length (y :: tl')) - Z.of_nat (length (x :: y :: tl')) >? 0)%Z
          with false; [reflexivity|].
        symmetry. rewrite Z.gtb_ltb. apply Z.ltb_ge. simpl length. lia.
      + replace (Z.of_nat (length (x :: tl)) - Z.of_nat (length (x :: tl)) >? 0)%Z
          with false; [reflexivity|].
        symmetry. rewrite Z.gtb_ltb. apply Z.ltb_ge. lia. }
  unfold tested. rewrite E. split; [reflexivity|]. split; [|reflexivity].
  rewrite (performed_app St _ _ w [GetPublicSuffix uri]); [reflexivity|].
  now rewrite E.
Qed.

End CheckEachParentDomainString.

(* ================================================================== *)
(** ** isThirdPartyURI and isThirdPartyChannel *)

Section ThirdParty.

Context `{P : Platform}.
Variable St : Type.

Lemma listed_test (url : string) :
  negb (JS.indexOf fakeThirdPartyURLs url =? -1)%Z = true
  <-> In url fakeThirdPartyURLs.
Proof.
  rewrite negb_true_iff, Z.eqb_neq. apply indexOf_In.
Qed.

Lemma unlisted_test (url : string) :
  negb (JS.indexOf fakeThirdPartyURLs url =? -1)%Z = false
  <-> ~ In url fakeThirdPartyURLs.
Proof.
  rewrite <- listed_test. destruct (negb _); split; congruence.
Qed.

(** C3.  For a URL [u] that parses and whose base domain the platform
    knows: [isThirdPartyURI(u, u)] is false when [u] is not in
    [fakeThirdPartyURLs]; when [u] is in the list the result is true for
    every document URL, and nothing is parsed or computed (the trace is
    left as it was). *)
Theorem isThirdPartyURI_of_itself (u : string) (uri : nsIURI) (base : string) :
  ABPUtils_makeURI u = Return uri ->
  ThirdPartyUtil_getBaseDomain uri = Return base ->
  (~ In u fakeThirdPartyURLs ->
   forall w : world St, fst (isThirdPartyURI u u w) = Return false) /\
  (In u fakeThirdPartyURLs ->
   forall (docUri : string) (w : world St),
     isThirdPartyURI u docUri w = (Return true, w) /\
     performed (isThirdPartyURI u docUri) w = []).
Proof.
  intros Hparse Hbase. split.
  - intros Hout w. apply unlisted_test in Hout.
    unfold isThirdPartyURI. rewrite Hout.
    unfold bind, service. rewrite Hparse. cbn [fst].
    unfold ThirdPartyUtil_isThirdPartyURI. rewrite Hbase.
    now rewrite String.eqb_refl.
  - intros Hin docUri w. apply listed_test in Hin.
    assert (E : isThirdPartyURI u docUri w = (Return true, w))
      by (unfold isThirdPartyURI; now rewrite Hin).
    split; [exact E|].
    apply performed_app. rewrite E. cbn [snd]. now rewrite app_nil_r.
Qed.

(** C8.  For every channel whose lookup fails, that is, for which
    [isThirdPartyChannel] asks the platform and the platform throws,
    [isThirdPartyChannel] returns false and no exception reaches the
    caller. *)
Theorem isThirdPartyChannel_fails_open (channel : nsIChannel) (w : world St) e :
  In (IsThirdPartyChannel channel) (performed (isThirdPartyChannel channel) w) ->
  ThirdPartyUtil_isThirdPartyChannel channel = Throw e ->
  fst (isThirdPartyChannel channel w) = Return false.
Proof.
  intros Hasked Hfail. unfold isThirdPartyChannel in *.
  destruct (negb (JS.indexOf fakeThirdPartyURLs (spec (URI channel)) =? -1)%Z).
  - exfalso. rewrite (performed_app St _ _ w []) in Hasked; [destruct Hasked|].
    cbn. now rewrite app_nil_r.
  - unfold try_catch, service. rewrite Hfail. reflexivity.
Qed.

End ThirdParty.

(* ================================================================== *)
(** ** getParentDomain *)

Section GetParentDomain.

Context `{P : Platform}.
Variable St : Type.

Local Open Scope js_scope.

(** At the floor [getParentDomain] hands the question on to
    [eTLDService.getBaseDomain]. *)
Lemma getParentDomain_floor_branch (uri : nsIURI) (w : world St) suffix :
  eTLD_getPublicSuffix uri = Return suffix ->
  labelCount (host uri) < labelCount suffix + 3 ->
  fst (getParentDomain uri w) = eTLD_getBaseDomain uri.
Proof.
  intros Hs Hlen. unfold getParentDomain, bind, service. rewrite Hs.
  fold (labelCount suffix). fold (labelCount (host uri)).
  replace (Z.of_nat (labelCount (host uri)) - Z.of_nat (labelCount suffix) <? 3)%Z
    with true by (symmetry; apply Z.ltb_lt; lia).
  reflexivity.
Qed.

(** C9 (as amended).  Let [base] be [getBaseDomain(h)], handed on as a
    URI whose public suffix the platform knows and which has fewer than
    three labels more than that suffix (as a public suffix and one label
    has).  Then [getParentDomain(getBaseDomain(h))] ends as
    [eTLDService.getBaseDomain] ends on [base], with its value or with
    its exception; so it equals [getBaseDomain(h)] exactly when
    [eTLDService.getBaseDomain] gives [base] for [base]. *)
Theorem getParentDomain_at_floor (uriOfHost : string -> nsIURI)
  (uri : nsIURI) (base suffix : string) (w : world St) :
  ThirdPartyUtil_getBaseDomain uri = Return base ->
  host (uriOfHost base) = base ->
  eTLD_getPublicSuffix (uriOfHost base) = Return suffix ->
  labelCount base < labelCount suffix + 3 ->
  fst (parentOfBaseDomain uriOfHost uri w) = eTLD_getBaseDomain (uriOfHost base) /\
  (fst (parentOfBaseDomain uriOfHost uri w) = fst (getBaseDomain uri w)
   <-> eTLD_getBaseDomain (uriOfHost base) = Return base).
Proof.
  intros Hbase Hhost Hs Hlen.
  assert (E : fst (parentOfBaseDomain uriOfHost uri w)
              = eTLD_getBaseDomain (uriOfHost base)).
  { unfold parentOfBaseDomain, bind, getBaseDomain, service. rewrite Hbase.
    apply getParentDomain_floor_branch with (suffix := suffix); [exact Hs|].
    now rewrite Hhost. }
  split; [exact E|]. rewrite E.
  unfold getBaseDomain, service. rewrite Hbase. cbn [fst]. tauto.
Qed.

End GetParentDomain.

(* ================================================================== *)
(** ** Runs on the test platform *)

Module Runs.

Import TestPlatform.

Local Open Scope string_scope.
Local Open Scope list_scope.

(** The walk stops at the first true answer: [bbc.co.uk] is not reached. *)
Example walk_stops_at_first_hit :
  checkEachParentDomainString (P := platform)
    (uriOf "www.radio.bbc.co.uk") (isString "radio.bbc.co.uk") None start
  = (Return true,
     {| user := 2;
        trace := [GetPublicSuffix (uriOf "www.radio.bbc.co.uk");
                  StringCallback "www.radio.bbc.co.uk" false;
                  StringCallback "radio.bbc.co.uk" true] |}).
Proof. reflexivity. Qed.

(** The two examples in the comment of [getParentDomain]. *)
Example parent_of_www_radio_bbc_co_uk :
  fst (getParentDomain (P := platform) (uriOf "www.radio.bbc.co.uk") start)
  = Return "radio.bbc.co.uk".
Proof. reflexivity. Qed.

Example parent_of_bbc_co_uk :
  fst (getParentDomain (P := platform) (uriOf "bbc.co.uk") start)
  = Return "bbc.co.uk".
Proof. reflexivity. Qed.

Example same_site_is_first_party :
  fst (isThirdPartyURI (P := platform)
         "http://a.example.com/x" "http://b.example.com/y" start)
  = Return false.
Proof. reflexivity. Qed.

Example other_site_is_third_party :
  fst (isThirdPartyURI (P := platform)
         "http://example.com/x" "http://other.org/y" start)
  = Return true.
Proof. reflexivity. Qed.

(** C1, as first stated, fails: for [radio.bbc.co.uk] with public suffix
    [co.uk] the callback is invoked on [bbc.co.uk], which has one label
    more than the suffix. *)
Lemma base_domain_is_tested : ~ @baseDomainNeverTested platform nat.
Proof.
  intros H.
  apply (H (uriOf "radio.bbc.co.uk") never None start "co.uk" "bbc.co.uk").
  - reflexivity.
  - vm_compute. right. now left.
  - reflexivity.
Qed.

Lemma check_stops_at_public_suffix_witness :
  (forall arg,
     In arg (tested (P := platform) (uriOf "radio.bbc.co.uk")
               (isString "bbc.co.uk") None start) ->
     labelCount "co.uk" < labelCount arg) /\
  exists earlier final,
    tested (P := platform) (uriOf "radio.bbc.co.uk") (isString "bbc.co.uk") None start
      = earlier ++ [final] /\
    labelCount final = labelCount "co.uk" + 1.
Proof.
  destruct (@check_stops_at_public_suffix platform nat
              (uriOf "radio.bbc.co.uk") (isString "bbc.co.uk") None start
              "co.uk" eq_refl)
    as [Habove Hlast].
  split; [exact Habove|].
  apply Hlast; [vm_compute; lia|].
  intros i arg Hnth Hlabels.
  destruct i as [|[|i]].
  - reflexivity.
  - vm_compute in Hnth. injection Hnth as <-. vm_compute in Hlabels. lia.
  - exfalso. vm_compute in Hnth. destruct i; discriminate.
Defined.

Lemma check_radio_bbc_co_uk_witness :
  tested (P := platform) (uriOf "radio.bbc.co.uk") never None start
    = ["radio.bbc.co.uk"; "bbc.co.uk"] /\
  ~ In "co.uk" (tested (P := platform) (uriOf "radio.bbc.co.uk") never None start) /\
  fst (checkEachParentDomainString (P := platform)
         (uriOf "radio.bbc.co.uk") never None start) = Return false.
Proof.
  apply (@check_radio_bbc_co_uk platform nat (uriOf "radio.bbc.co.uk") never start);
    reflexivity.
Defined.

Lemma isThirdPartyURI_of_itself_witness :
  fst (isThirdPartyURI (P := platform) "http://www.example.com/x"
         "http://www.example.com/x" start) = Return false.
Proof.
  apply (@isThirdPartyURI_of_itself platform nat "http://www.example.com/x"
           {| spec := "http://www.example.com/x"; host := "www.example.com" |}
           "example.com"); [reflexivity | reflexivity |].
  intros [H|[]]. discriminate.
Defined.

(** C5, as first stated, fails: for the base domain [bbc.co.uk] and
    [ignoreSelf = true] the callback is not invoked at all, so not on the
    parent either. *)
Lemma ignoreSelf_at_base_domain_tests_nothing : ~ @ignoreSelfTestsParent platform nat.
Proof.
  intros H.
  destruct (H (uriOf "bbc.co.uk") never start "co.uk" eq_refl) as [_ Hin].
  vm_compute in Hin. exact Hin.
Qed.

Lemma ignoreSelf_starts_at_parent_witness :
  ~ In "www.radio.bbc.co.uk"
      (tested (P := platform) (uriOf "www.radio.bbc.co.uk") never (Some true) start) /\
  exists rest,
    tested (P := platform) (uriOf "www.radio.bbc.co.uk") never (Some true) start
      = "radio.bbc.co.uk" :: rest.
Proof.
  apply (@ignoreSelf_starts_at_parent platform nat
           (uriOf "www.radio.bbc.co.uk") never start "co.uk");
    [reflexivity | vm_compute; lia].
Defined.

Lemma tested_chain_invariant_witness :
  (forall i a b,
     nth_error (tested (P := platform) (uriOf "www.radio.bbc.co.uk")
                  never None start) i = Some a ->
     nth_error (tested (P := platform) (uriOf "www.radio.bbc.co.uk")
                  never None start) (S i) = Some b ->
     labelCount b < labelCount a /\ labelCount a = S (labelCount b)) /\
  (forall a,
     In a (tested (P := platform) (uriOf "www.radio.bbc.co.uk") never None start) ->
     labelCount "co.uk" + 1 <= labelCount a).
Proof.
  apply (@tested_chain_invariant platform nat
           (uriOf "www.radio.bbc.co.uk") never None start "co.uk").
  reflexivity.
Defined.

Lemma check_propagates_resolution_error_witness :
  fst (checkEachParentDomainString (P := platform) (uriOf "") never None start)
    = Throw "NS_ERROR_INSUFFICIENT_DOMAIN_LEVELS" /\
  tested (P := platform) (uriOf "") never None start = [] /\
  user (snd (checkEachParentDomainString (P := platform)
               (uriOf "") never None start)) = user start.
Proof.
  apply (@check_propagates_resolution_error platform nat (uriOf "") never None start
           "NS_ERROR_INSUFFICIENT_DOMAIN_LEVELS").
  reflexivity.
Defined.

Lemma isThirdPartyChannel_fails_open_witness :
  fst (isThirdPartyChannel (P := platform) orphanChannel start) = Return false.
Proof.
  apply (@isThirdPartyChannel_fails_open platform nat orphanChannel start
           "NS_ERROR_INVALID_ARG").
  - vm_compute. now left.
  - reflexivity.
Defined.

(** The test request of [fakeThirdPartyURLs] is third-party on any
    channel, and the platform is not asked. *)
Example listed_channel_is_not_looked_up :
  isThirdPartyChannel (P := platform) fixtureChannel start = (Return true, start).
Proof. reflexivity. Qed.

(** C9, as first stated, fails: the base domain the platform gives for
    [localhost] is [localhost] itself, and [getParentDomain] of it ends
    with the exception of [eTLDService.getBaseDomain]. *)
Lemma parent_of_localhost_throws : ~ @baseDomainIsFloor platform nat.
Proof.
  intros H.
  specialize (H uriOf (uriOf "localhost") "localhost" start
                (fun h => eq_refl) eq_refl).
  vm_compute in H. discriminate.
Qed.

Lemma getParentDomain_at_floor_witness :
  fst (parentOfBaseDomain (P := platform) uriOf (uriOf "www.bbc.co.uk") start)
    = eTLD_getBaseDomain (Platform := platform) (uriOf "bbc.co.uk") /\
  (fst (parentOfBaseDomain (P := platform) uriOf (uriOf "www.bbc.co.uk") start)
     = fst (getBaseDomain (P := platform) (uriOf "www.bbc.co.uk") start)
   <-> eTLD_getBaseDomain (Platform := platform) (uriOf "bbc.co.uk")
       = Return "bbc.co.uk").
Proof.
  apply (@getParentDomain_at_floor platform nat uriOf (uriOf "www.bbc.co.uk")
           "bbc.co.uk" "co.uk" start).
  - reflexivity.
  - reflexivity.
  - reflexivity.
  - vm_compute. lia.
Defined.

Lemma check_bare_public_suffix_witness :
  fst (checkEachParentDomainString (P := platform) (uriOf "co.uk") never (Some true) start)
    = Return false /\
  tested (P := platform) (uriOf "co.uk") never (Some true) start = [] /\
  user (snd (checkEachParentDomainString (P := platform)
               (uriOf "co.uk") never (Some true) start)) = user start.
Proof.
  apply (@check_bare_public_suffix platform nat (uriOf "co.uk") never (Some true)
           start "co.uk"); reflexivity.
Defined.

End Runs.

(* ================================================================== *)
(** ** checkEachParentDomainString: the chain, the answers, the state *)

Section ParentChain.

Context `{P : Platform}.
Variable St : Type.

Implicit Types (uri : nsIURI) (stringCallback : string -> St -> bool * St)
  (ignoreSelf : option bool) (w : world St) (suffix : string).

Lemma string_append_assoc (a b c : string) :
  ((a ++ b) ++ c)%string = (a ++ (b ++ c))%string.
Proof. induction a as [|ch a IH]; simpl; congruence. Qed.

(** A joined array ends with the join of each of its non-empty tails,
    behind a dot. *)
Lemma join_skipn_suffix (a : list string) (i : nat) :
  i < length a ->
  JS.join "." (skipn i a) = JS.join "." a \/
  exists front, JS.join "." a = (front ++ "." ++ JS.join "." (skipn i a))%string.
Proof.
  revert i. induction a as [|x tl IH]; intros i Hi; simpl in Hi; [lia|].
  destruct i as [|i]; [now left | right].
  cbn [skipn]. destruct tl as [|y tl']; [simpl in Hi; lia|].
  change (JS.join "." (x :: y :: tl'))
    with (x ++ "." ++ JS.join "." (y :: tl'))%string.
  destruct (IH i ltac:(simpl in *; lia)) as [E|[front E]].
  - exists x. now rewrite E.
  - exists (x ++ "." ++ front)%string. rewrite E.
    now rewrite !string_append_assoc.
Qed.

(** The loop, for a callback whose answer depends on the string only. *)
Lemma eachParent_pure stringCallback (p : string -> bool) (k : nat)
  (hostArray : list string) w :
  (forall s st, fst (stringCallback s st) = p s) ->
  fst (eachParent stringCallback k hostArray w)
  = Return (existsb p (map (candidate hostArray) (seq 0 (length hostArray - k)))).
Proof.
  intros Hp. revert w. induction hostArray as [|x tl IH]; intros w; [reflexivity|].
  cbn [eachParent].
  destruct (Z.of_nat (length (x :: tl)) - Z.of_nat k >? 0)%Z eqn:G.
  - apply Z.gtb_lt in G. simpl length in *.
    replace (S (length tl) - k) with (S (length tl - k)) by lia.
    cbn [seq map existsb]. rewrite <- seq_shift, map_map.
    unfold bind, invoke.
    pose proof (Hp (JS.join "." (x :: tl)) (user w)) as Hx.
    destruct (stringCallback (JS.join "." (x :: tl)) (user w)) as [result st].
    cbn [fst] in Hx. subst result.
    change (candidate (x :: tl) 0) with (JS.join "." (x :: tl)).
    destruct (p (JS.join "." (x :: tl))); [reflexivity|].
    cbn [orb]. rewrite IH. reflexivity.
  - rewrite Z.gtb_ltb in G. apply Z.ltb_ge in G. simpl length in *.
    replace (S (length tl) - k) with 0 by lia. reflexivity.
Qed.

(** The loop only adds invocations of the callback to the trace, and
    what it records is the callback replayed over the tested strings. *)
Lemma eachParent_replay stringCallback (k : nat) (hostArray : list string) w :
  exists evs,
    trace (snd (eachParent stringCallback k hostArray w)) = trace w ++ evs /\
    forallb isCallback evs = true /\
    (callbackResults evs, user (snd (eachParent stringCallback k hostArray w)))
    = replay stringCallback (callbackArgs evs) (user w).
Proof.
  revert w. induction hostArray as [|x tl IH]; intros w.
  - exists []. cbn. now rewrite app_nil_r.
  - cbn [eachParent].
    destruct (Z.of_nat (length (x :: tl)) - Z.of_nat k >? 0)%Z.
    + unfold bind, invoke.
      destruct (stringCallback (JS.join "." (x :: tl)) (user w)) as [result st] eqn:Ecb.
      destruct result.
      * exists [StringCallback (JS.join "." (x :: tl)) true].
        cbn [fst snd trace user ret callbackArgs callbackResults replay
             forallb isCallback andb].
        rewrite Ecb. auto.
      * destruct (IH {| user := st;
                        trace := trace w ++ [StringCallback (JS.join "." (x :: tl)) false] |})
          as (evs & Ht & Hall & Hre).
        exists (StringCallback (JS.join "." (x :: tl)) false :: evs).
        split; [|split].
        -- rewrite Ht. cbn [trace]. now rewrite <- app_assoc.
        -- exact Hall.
        -- cbn [callbackArgs callbackResults replay user] in *.
           rewrite Ecb, <- Hre. reflexivity.
    + exists []. cbn. now rewrite app_nil_r.
Qed.

Lemma check_events uri stringCallback ignoreSelf w :
  exists evs,
    performed (checkEachParentDomainString uri stringCallback ignoreSelf) w
      = GetPublicSuffix uri :: evs /\
    forallb isCallback evs = true /\
    (callbackResults evs,
     user (snd (checkEachParentDomainString uri stringCallback ignoreSelf w)))
    = replay stringCallback (callbackArgs evs) (user w).
Proof.
  destruct (eTLD_getPublicSuffix uri) as [suffix|e] eqn:Hs.
  - destruct (eachParent_replay stringCallback (labelCount suffix)
                (startArray uri ignoreSelf) (record (GetPublicSuffix uri) w))
      as (evs & Ht & Hall & Hre).
    assert (E : checkEachParentDomainString uri stringCallback ignoreSelf w
                = eachParent stringCallback (labelCount suffix)
                    (startArray uri ignoreSelf) (record (GetPublicSuffix uri) w)).
    { unfold checkEachParentDomainString, bind, service. rewrite Hs. reflexivity. }
    exists evs. rewrite E. split; [|split; [exact Hall | exact Hre]].
    apply performed_app. rewrite E, Ht. cbn [record trace].
    now rewrite <- app_assoc.
  - exists []. rewrite (tested_throw St uri stringCallback ignoreSelf w e Hs).
    rewrite (check_throw St uri stringCallback ignoreSelf w e Hs).
    repeat split.
Qed.

Lemma check_pure uri stringCallback ignoreSelf w suffix (p : string -> bool) :
  eTLD_getPublicSuffix uri = Return suffix ->
  (forall s st, fst (stringCallback s st) = p s) ->
  fst (checkEachParentDomainString uri stringCallback ignoreSelf w)
  = Return (existsb p (parentChain uri ignoreSelf suffix)).
Proof.
  intros Hs Hp.
  unfold checkEachParentDomainString, bind, service. rewrite Hs.
  apply eachParent_pure. exact Hp.
Qed.

(** X1.  For a callback whose answer depends on the string only,
    [checkEachParentDomainString] returns true exactly when the callback
    holds of some string of the chain: the result is [existsb] of the
    predicate over the chain. *)
Theorem check_is_exists_over_chain uri stringCallback ignoreSelf w suffix
  (p : string -> bool) :
  eTLD_getPublicSuffix uri = Return suffix ->
  (forall s st, fst (stringCallback s st) = p s) ->
  fst (checkEachParentDomainString uri stringCallback ignoreSelf w)
  = Return (existsb p (parentChain uri ignoreSelf suffix)).
Proof.
  intros Hs Hp. now apply check_pure.
Qed.

(** X2.  Every string the callback is invoked on is the host itself or
    what follows one of the dots of the host: nothing is tested that is
    not a dot-suffix of the host. *)
Theorem tested_are_suffixes_of_host uri stringCallback ignoreSelf w arg :
  In arg (tested uri stringCallback ignoreSelf w) ->
  arg = host uri \/ exists front, host uri = (front ++ "." ++ arg)%string.
Proof.
  intros Hin.
  destruct (eTLD_getPublicSuffix uri) as [suffix|e] eqn:Hs.
  - destruct (tested_inv St uri stringCallback ignoreSelf w suffix arg Hs Hin)
      as (i & -> & Hi).
    pose proof (join_split dot (host uri)) as Hj.
    change (String dot EmptyString) with "."%string in Hj.
    assert (Hsk : exists i', candidate (startArray uri ignoreSelf) i
                             = JS.join "." (skipn i' (JS.split dot (host uri)))
                             /\ i' < length (JS.split dot (host uri))).
    { unfold startArray in *. destruct (orFalse ignoreSelf).
      - destruct (JS.split dot (host uri)) as [|x tl]; simpl in *; [lia|].
        exists (S i). split; [reflexivity | lia].
      - exists i. split; [reflexivity | lia]. }
    destruct Hsk as (i' & -> & Hi').
    destruct (join_skipn_suffix (JS.split dot (host uri)) i' Hi') as [E|[front E]].
    + left. now rewrite E.
    + right. exists front. now rewrite <- E.
  - unfold tested in Hin.
    rewrite (tested_throw St uri stringCallback ignoreSelf w e Hs) in Hin.
    destruct Hin.
Qed.

(** X3.  The tested strings are a prefix of the chain, in the chain's
    order; and when the function returns false the whole chain was
    tested. *)
Theorem tested_is_prefix_of_chain uri stringCallback ignoreSelf w suffix :
  eTLD_getPublicSuffix uri = Return suffix ->
  (exists rest,
     parentChain uri ignoreSelf suffix
     = tested uri stringCallback ignoreSelf w ++ rest) /\
  (fst (checkEachParentDomainString uri stringCallback ignoreSelf w) = Return false ->
   tested uri stringCallback ignoreSelf w = parentChain uri ignoreSelf suffix).
Proof.
  intros Hs.
  destruct (tested_run St uri stringCallback ignoreSelf w suffix Hs)
    as (n & Ht & Hn & Hfalse).
  unfold parentChain. rewrite Ht. split.
  - set (L := length (startArray uri ignoreSelf) - labelCount suffix) in *.
    exists (map (candidate (startArray uri ignoreSelf)) (seq n (L - n))).
    rewrite <- map_app, <- seq_app. f_equal. f_equal. lia.
  - intros Hr. now rewrite (Hfalse Hr).
Qed.

(** The chain of a host that has more labels than its suffix starts with
    the host, and goes on with the chain that [ignoreSelf] gives. *)
Lemma parentChain_self uri suffix :
  labelCount suffix < labelCount (host uri) ->
  parentChain uri None suffix = host uri :: parentChain uri (Some true) suffix.
Proof.
  intros Hlen. unfold parentChain, startArray, labelCount in *. cbn [orFalse].
  pose proof (join_split dot (host uri)) as Hj.
  destruct (JS.split dot (host uri)) as [|x tl]; [simpl in Hlen; lia|].
  cbn [JS.shift List.tl]. simpl length in *.
  replace (S (length tl) - length (JS.split dot suffix))
    with (S (length tl - length (JS.split dot suffix))) by lia.
  cbn [seq map]. rewrite <- seq_shift, map_map. f_equal. exact Hj.
Qed.

(** X4.  For a callback whose answer depends on the string only and a
    host with more labels than its public suffix, testing with the host
    included is testing the host, or else testing with [ignoreSelf]. *)
Theorem check_self_or_parents uri stringCallback w w' suffix (p : string -> bool) :
  eTLD_getPublicSuffix uri = Return suffix ->
  (forall s st, fst (stringCallback s st) = p s) ->
  labelCount suffix < labelCount (host uri) ->
  exists b,
    fst (checkEachParentDomainString uri stringCallback (Some true) w') = Return b /\
    fst (checkEachParentDomainString uri stringCallback None w)
    = Return (p (host uri) || b).
Proof.
  intros Hs Hp Hlen.
  exists (existsb p (parentChain uri (Some true) suffix)). split.
  - now apply check_pure.
  - rewrite (check_pure uri stringCallback None w suffix p Hs Hp).
    now rewrite parentChain_self.
Qed.

(** X5.  The answers recorded in a run and the caller's state after it
    are those of the callback replayed over the tested strings, in
    order, from the caller's state before the run: each tested string
    is one invocation, in the state the previous invocation left. *)
Theorem check_replays_callback uri stringCallback ignoreSelf w :
  (answers uri stringCallback ignoreSelf w,
   user (snd (checkEachParentDomainString uri stringCallback ignoreSelf w)))
  = replay stringCallback (tested uri stringCallback ignoreSelf w) (user w).
Proof.
  destruct (check_events uri stringCallback ignoreSelf w) as (evs & Hp & _ & Hre).
  unfold answers, tested. rewrite Hp. exact Hre.
Qed.

(** X6.  In every run [checkEachParentDomainString] asks the platform
    exactly one thing, the public suffix of the URI, and asks it first;
    everything after it in the trace is an invocation of the callback. *)
Theorem check_asks_platform_once uri stringCallback ignoreSelf w :
  exists calls,
    performed (checkEachParentDomainString uri stringCallback ignoreSelf) w
      = GetPublicSuffix uri :: calls /\
    forallb isCallback calls = true.
Proof.
  destruct (check_events uri stringCallback ignoreSelf w) as (evs & Hp & Hall & _).
  exists evs. auto.
Qed.

End ParentChain.

(* ================================================================== *)
(** ** getParentDomain: hosts above the floor, and failures *)

Section ParentDomain.

Context `{P : Platform}.
Variable St : Type.

Implicit Types (uri : nsIURI) (w : world St) (suffix : string).

(** A host with two labels or more is its first label, a dot, and its
    immediate parent, which has one label fewer. *)
Lemma immediateParent_spec (h : string) :
  2 <= labelCount h ->
  labelCount (immediateParent h) + 1 = labelCount h /\
  exists label,
    JS.lacks dot label /\ h = (label ++ "." ++ immediateParent h)%string.
Proof.
  unfold labelCount, immediateParent. intros Hlen.
  pose proof (join_split dot h) as Hj.
  pose proof (split_pieces_lack dot h) as Hl.
  destruct (JS.split dot h) as [|x [|y tl]]; simpl in Hlen; try lia.
  cbn [JS.shift List.tl].
  pose proof (Forall_inv Hl) as Hx. pose proof (Forall_inv_tail Hl) as Htl.
  split.
  - change "."%string with (String dot EmptyString).
    rewrite split_join; [simpl; lia | discriminate | assumption].
  - exists x. split; [exact Hx|]. symmetry. exact Hj.
Qed.

Lemma getParentDomain_deep uri w suffix :
  eTLD_getPublicSuffix uri = Return suffix ->
  labelCount suffix + 3 <= labelCount (host uri) ->
  getParentDomain uri w
  = (Return (immediateParent (host uri)), record (GetPublicSuffix uri) w).
Proof.
  intros Hs Hlen. unfold getParentDomain, bind, service. rewrite Hs.
  fold (labelCount suffix). fold (labelCount (host uri)).
  replace (Z.of_nat (labelCount (host uri)) - Z.of_nat (labelCount suffix) <? 3)%Z
    with false by (symmetry; apply Z.ltb_ge; lia).
  reflexivity.
Qed.

(** X7.  For a host with at least three labels more than its public
    suffix, [getParentDomain] returns the host without its leftmost
    label: the result has exactly one label fewer, the host is that
    label, a dot and the result, and the platform is not asked for a
    base domain. *)
Theorem getParentDomain_strips_one_label uri w suffix :
  eTLD_getPublicSuffix uri = Return suffix ->
  labelCount suffix + 3 <= labelCount (host uri) ->
  exists parent label,
    getParentDomain uri w = (Return parent, record (GetPublicSuffix uri) w) /\
    labelCount parent + 1 = labelCount (host uri) /\
    JS.lacks dot label /\
    host uri = (label ++ "." ++ parent)%string.
Proof.
  intros Hs Hlen.
  destruct (immediateParent_spec (host uri) ltac:(lia)) as (Hc & label & Hl & Hh).
  exists (immediateParent (host uri)), label.
  split; [exact (getParentDomain_deep uri w suffix Hs Hlen)|]. auto.
Qed.

(** X8.  For such a host, what [getParentDomain] returns is the first
    string [checkEachParentDomainString] tests with [ignoreSelf]. *)
Theorem getParentDomain_is_first_tested uri w (w' : world St)
  (stringCallback : string -> St -> bool * St) suffix :
  eTLD_getPublicSuffix uri = Return suffix ->
  labelCount suffix + 3 <= labelCount (host uri) ->
  exists parent rest,
    fst (getParentDomain uri w) = Return parent /\
    tested uri stringCallback (Some true) w' = parent :: rest.
Proof.
  intros Hs Hlen.
  destruct (check_run St uri stringCallback (Some true) w' suffix Hs)
    as (j & hit & _ & Hp & Hj & _).
  assert (Hsa : length (startArray uri (Some true)) = labelCount (host uri) - 1).
  { unfold startArray, labelCount. cbn [orFalse].
    destruct (JS.split dot (host uri)); simpl; lia. }
  assert (Hn : exists n, (if hit then S j else j) = S n)
    by (destruct hit; [now exists j | exists (j - 1); lia]).
  destruct Hn as [n Hn].
  exists (immediateParent (host uri)),
         (map (candidate (startArray uri (Some true))) (seq 1 n)).
  split.
  - now rewrite (getParentDomain_deep uri w suffix Hs Hlen).
  - unfold tested. rewrite Hp. cbn [callbackArgs].
    rewrite walkEvents_args, Hn. reflexivity.
Qed.

(** X9.  [getParentDomain] fails only with an exception of the
    platform: the one [getPublicSuffix] threw, or, for a host within two
    labels of its public suffix, the one [getBaseDomain] threw. *)
Theorem getParentDomain_failure_origin uri w e :
  fst (getParentDomain uri w) = Throw e ->
  eTLD_getPublicSuffix uri = Throw e \/
  exists suffix,
    eTLD_getPublicSuffix uri = Return suffix /\
    labelCount (host uri) < labelCount suffix + 3 /\
    eTLD_getBaseDomain uri = Throw e.
Proof.
  unfold getParentDomain, bind, service.
  destruct (eTLD_getPublicSuffix uri) as [suffix|e'] eqn:Hs.
  - fold (labelCount suffix). fold (labelCount (host uri)).
    destruct (Z.of_nat (labelCount (host uri)) - Z.of_nat (labelCount suffix) <? 3)%Z
      eqn:G; cbn [fst ret].
    + intros Hb. right. exists suffix.
      apply Z.ltb_lt in G. repeat split; [lia | exact Hb].
    + discriminate.
  - cbn [fst]. intros [= ->]. now left.
Qed.

End ParentDomain.

(* ================================================================== *)
(** ** isThirdPartyChannel and isThirdPartyURI: failures *)

Section ThirdPartyFailures.

Context `{P : Platform}.
Variable St : Type.

(** X10.  [isThirdPartyChannel] never ends with an exception, whatever
    the channel; it asks the platform at most once; and it answers true
    only for a URL of [fakeThirdPartyURLs] or when the platform answered
    true. *)
Theorem isThirdPartyChannel_total (channel : nsIChannel) (w : world St) :
  exists b,
    fst (isThirdPartyChannel channel w) = Return b /\
    length (performed (isThirdPartyChannel channel) w) <= 1 /\
    (b = true ->
     In (spec (URI channel)) fakeThirdPartyURLs \/
     ThirdPartyUtil_isThirdPartyChannel channel = Return true).
Proof.
  unfold isThirdPartyChannel.
  destruct (negb (JS.indexOf fakeThirdPartyURLs (spec (URI channel)) =? -1)%Z) eqn:E.
  - exists true. split; [reflexivity|]. split.
    + rewrite (performed_app St _ _ w []); [simpl; lia|].
      cbn. now rewrite app_nil_r.
    + intros _. left. now apply listed_test.
  - unfold try_catch, service.
    destruct (ThirdPartyUtil_isThirdPartyChannel channel) as [b|e] eqn:Hl.
    + exists b. split; [reflexivity|]. split.
      * unfold performed. cbn [snd record trace].
        rewrite skipn_app, skipn_all, Nat.sub_diag. simpl. lia.
      * intros ->. now right.
    + exists false. split; [reflexivity|]. split.
      * unfold performed. cbn [snd record trace ret].
        rewrite skipn_app, skipn_all, Nat.sub_diag. simpl. lia.
      * discriminate.
Qed.

(** X11.  For a request URL that is not in [fakeThirdPartyURLs],
    [isThirdPartyURI] passes failures on: when the request URL does not
    parse, it ends with that exception and the document URL is never
    parsed; when the document URL does not parse, it ends with that
    exception and the platform is not asked to compare. *)
Theorem isThirdPartyURI_passes_failures_on (uri docUri : string) (w : world St) :
  ~ In uri fakeThirdPartyURLs ->
  (forall e, ABPUtils_makeURI uri = Throw e ->
     fst (isThirdPartyURI uri docUri w) = Throw e /\
     performed (isThirdPartyURI uri docUri) w = [MakeURI uri]) /\
  (forall uri' e, ABPUtils_makeURI uri = Return uri' ->
     ABPUtils_makeURI docUri = Throw e ->
     fst (isThirdPartyURI uri docUri w) = Throw e /\
     performed (isThirdPartyURI uri docUri) w = [MakeURI uri; MakeURI docUri]).
Proof.
  intros Hout. apply unlisted_test in Hout. split.
  - intros e He.
    assert (E : isThirdPartyURI uri docUri w = (Throw e, record (MakeURI uri) w))
      by (unfold isThirdPartyURI, bind, service; now rewrite Hout, He).
    split; [now rewrite E|]. apply performed_app. now rewrite E.
  - intros uri' e Hu He.
    assert (E : isThirdPartyURI uri docUri w
                = (Throw e, record (MakeURI docUri) (record (MakeURI uri) w)))
      by (unfold isThirdPartyURI, bind, service; now rewrite Hout, Hu, He).
    split; [now rewrite E|]. apply performed_app. rewrite E.
    cbn [snd record trace]. now rewrite <- app_assoc.
Qed.

End ThirdPartyFailures.

(* ================================================================== *)
(** ** getWindowForChannel and getTopWindowForChannel *)

Section ChannelWindows.

Import Windows.

Variable window : Type.
Variable top : window -> window.

Implicit Types (channel : nsIChannel window).

(** X12.  [getWindowForChannel] writes exactly one message to the
    console when it returns [null] and none when it returns a window.
    Every failure up to the load context is turned into [null]: the
    only exception that leaves the function is one thrown by reading
    [associatedWindow] of a load context the channel's callbacks, or its
    load group's, gave.  [getTopWindowForChannel] writes the same
    messages and returns [null] in the same cases. *)
Theorem getWindowForChannel_null_is_logged channel :
  match getWindowForChannel channel with
  | (Return None, out) => length out = 1
  | (Return (Some _), out) => out = []
  | (Throw e, out) =>
      out = [] /\
      exists callbacks context,
        getInterface callbacks = Return context /\
        associatedWindow context = Throw e /\
        (firstCallbacks channel = Return (Some callbacks) \/
         exists group,
           loadGroup channel = Return (Some group) /\
           groupCallbacks group = Return (Some callbacks))
  end /\
  snd (getTopWindowForChannel top channel) = snd (getWindowForChannel channel) /\
  (fst (getTopWindowForChannel top channel) = Return None
   <-> fst (getWindowForChannel channel) = Return None).
Proof.
  split.
  - unfold getWindowForChannel.
    destruct (firstCallbacks channel) as [[nc|]|e0] eqn:Hfirst; try reflexivity.
    destruct (getInterface nc) as [context|e1] eqn:Hown.
    + destruct (associatedWindow context) as [[win|]|e] eqn:Hwin; try reflexivity.
      split; [reflexivity|]. exists nc, context. auto.
    + unfold groupLoadContext.
      destruct (loadGroup channel) as [[group|]|e2] eqn:Hgroup; try reflexivity.
      destruct (groupCallbacks group) as [[callbacks|]|e3] eqn:Hcb; try reflexivity.
      destruct (getInterface callbacks) as [context|e4] eqn:Hctx; try reflexivity.
      destruct (associatedWindow context) as [[win|]|e] eqn:Hwin; try reflexivity.
      split; [reflexivity|]. exists callbacks, context.
      repeat split; try assumption. right. exists group. auto.
  - unfold getTopWindowForChannel.
    destruct (getWindowForChannel channel) as [[[win|]|e] out]; cbn [fst snd];
      (split; [reflexivity|]); split; congruence.
Qed.

(** X13.  When the channel's own callbacks give a load context, the load
    group plays no part: the result and the console are the same
    whatever the load group is. *)
Theorem getWindowForChannel_ignores_group channel callbacks context
  (otherGroup : completion error (option (nsILoadGroup window))) :
  notificationCallbacks channel = Return (Some callbacks) ->
  getInterface callbacks = Return context ->
  getWindowForChannel
    {| URI := URI channel;
       notificationCallbacks := notificationCallbacks channel;
       loadGroup := otherGroup |}
  = getWindowForChannel channel.
Proof.
  intros Hnc Hctx.
  unfold getWindowForChannel, firstCallbacks. cbn [notificationCallbacks URI].
  rewrite Hnc, Hctx. reflexivity.
Qed.

(** X14.  When the channel's own callbacks refuse to give a load
    context, the callbacks of the load group stand in for them: the
    result and the console are those of the same channel with the load
    group's callbacks as its own. *)
Theorem getWindowForChannel_falls_back_to_group channel callbacks group
  groupCallbacks' e :
  notificationCallbacks channel = Return (Some callbacks) ->
  getInterface callbacks = Throw e ->
  loadGroup channel = Return (Some group) ->
  groupCallbacks group = Return (Some groupCallbacks') ->
  getWindowForChannel channel
  = getWindowForChannel
      {| URI := URI channel;
         notificationCallbacks := Return (Some groupCallbacks');
         loadGroup := loadGroup channel |}.
Proof.
  intros Hnc Hrefuse Hgroup Hcb.
  unfold getWindowForChannel, firstCallbacks, groupLoadContext.
  cbn [notificationCallbacks loadGroup URI].
  rewrite Hnc, Hrefuse, Hgroup, Hcb.
  destruct (getInterface groupCallbacks'); reflexivity.
Qed.

End ChannelWindows.

(* ================================================================== *)
(** ** getWindowForSdkTab and getAllWindows *)

Section TabWindows.

Import Tabs.

Variables tab window : Type.
Variable getTabId : tab -> string.
Variable getTabContentWindow : tab -> window.

Implicit Types (tabs : list tab) (sdkTab : sdkTab).

(** X15.  [getWindowForSdkTab] returns [null] exactly when no open tab
    has the identifier of the SDK tab. *)
Theorem getWindowForSdkTab_null_iff tabs sdkTab :
  getWindowForSdkTab getTabId getTabContentWindow tabs sdkTab = None
  <-> forall t, In t tabs -> getTabId t <> id sdkTab.
Proof.
  induction tabs as [|t rest IH]; cbn [getWindowForSdkTab].
  - split; [intros _ t [] | reflexivity].
  - destruct (String.eqb (id sdkTab) (getTabId t)) eqn:E.
    + apply String.eqb_eq in E. split; [discriminate|].
      intros H. exfalso. apply (H t); [now left | now symmetry].
    + apply String.eqb_neq in E. rewrite IH. split.
      * intros H t' [<-|Hin]; [congruence | now apply H].
      * intros H t' Hin. apply H. now right.
Qed.

(** X16.  A window that [getWindowForSdkTab] returns is the content
    window of the first open tab with the identifier of the SDK tab, and
    [getAllWindows] has that window at the position of that tab. *)
Theorem getWindowForSdkTab_first_match tabs sdkTab win :
  getWindowForSdkTab getTabId getTabContentWindow tabs sdkTab = Some win ->
  exists i t,
    nth_error tabs i = Some t /\
    getTabId t = id sdkTab /\
    win = getTabContentWindow t /\
    (forall j t', j < i -> nth_error tabs j = Some t' -> getTabId t' <> id sdkTab) /\
    nth_error (getAllWindows getTabContentWindow tabs) i = Some win.
Proof.
  induction tabs as [|t rest IH]; cbn [getWindowForSdkTab]; [discriminate|].
  destruct (String.eqb (id sdkTab) (getTabId t)) eqn:E.
  - apply String.eqb_eq in E. intros [= <-].
    exists 0, t. repeat split; auto. intros j t' Hj. lia.
  - apply String.eqb_neq in E. intros Hfound.
    destruct (IH Hfound) as (i & t0 & Hnth & Hid & Hwin & Hfirst & Hall).
    exists (S i), t0. repeat split; auto.
    intros [|j] t' Hj Hn; cbn in Hn.
    + injection Hn as <-. congruence.
    + apply (Hfirst j t'); [lia | exact Hn].
Qed.

End TabWindows.

(* ================================================================== *)
(** ** More runs *)

Module MoreRuns.

Import TestPlatform Samples.

Local Open Scope string_scope.
Local Open Scope list_scope.

(** A callback that answers by the string alone. *)
Lemma isString_pure (wanted s : string) (count : nat) :
  fst (isString wanted s count) = String.eqb s wanted.
Proof. reflexivity. Qed.

Lemma check_is_exists_over_chain_witness :
  fst (checkEachParentDomainString (P := platform)
         (uriOf "www.radio.bbc.co.uk") (isString "bbc.co.uk") None start)
  = Return (existsb (fun s => String.eqb s "bbc.co.uk")
              (parentChain (uriOf "www.radio.bbc.co.uk") None "co.uk")).
Proof.
  apply (@check_is_exists_over_chain platform nat (uriOf "www.radio.bbc.co.uk")
           (isString "bbc.co.uk") None start "co.uk"
           (fun s => String.eqb s "bbc.co.uk")).
  - reflexivity.
  - intros s st. reflexivity.
Defined.

Lemma tested_are_suffixes_of_host_witness :
  "bbc.co.uk" = host (uriOf "radio.bbc.co.uk") \/
  exists front, host (uriOf "radio.bbc.co.uk") = (front ++ "." ++ "bbc.co.uk")%string.
Proof.
  apply (@tested_are_suffixes_of_host platform nat (uriOf "radio.bbc.co.uk")
           never None start "bbc.co.uk").
  vm_compute. right. now left.
Defined.

Lemma tested_is_prefix_of_chain_witness :
  (exists rest,
     parentChain (uriOf "www.radio.bbc.co.uk") None "co.uk"
     = tested (P := platform) (uriOf "www.radio.bbc.co.uk")
         (isString "radio.bbc.co.uk") None start ++ rest) /\
  (fst (checkEachParentDomainString (P := platform) (uriOf "www.radio.bbc.co.uk")
          (isString "radio.bbc.co.uk") None start) = Return false ->
   tested (P := platform) (uriOf "www.radio.bbc.co.uk")
     (isString "radio.bbc.co.uk") None start
   = parentChain (uriOf "www.radio.bbc.co.uk") None "co.uk").
Proof.
  apply (@tested_is_prefix_of_chain platform nat (uriOf "www.radio.bbc.co.uk")
           (isString "radio.bbc.co.uk") None start "co.uk").
  reflexivity.
Defined.

Lemma check_self_or_parents_witness :
  exists b,
    fst (checkEachParentDomainString (P := platform) (uriOf "radio.bbc.co.uk")
           (isString "radio.bbc.co.uk") (Some true) start) = Return b /\
    fst (checkEachParentDomainString (P := platform) (uriOf "radio.bbc.co.uk")
           (isString "radio.bbc.co.uk") None start)
    = Return (String.eqb "radio.bbc.co.uk" "radio.bbc.co.uk" || b).
Proof.
  apply (@check_self_or_parents platform nat (uriOf "radio.bbc.co.uk")
           (isString "radio.bbc.co.uk") start start "co.uk"
           (fun s => String.eqb s "radio.bbc.co.uk")).
  - reflexivity.
  - intros s st. reflexivity.
  - vm_compute. lia.
Defined.

Lemma getParentDomain_strips_one_label_witness :
  exists parent label,
    getParentDomain (P := platform) (uriOf "www.radio.bbc.co.uk") start
    = (Return parent, record (GetPublicSuffix (uriOf "www.radio.bbc.co.uk")) start) /\
    labelCount parent + 1 = labelCount "www.radio.bbc.co.uk" /\
    JS.lacks dot label /\
    "www.radio.bbc.co.uk" = (label ++ "." ++ parent)%string.
Proof.
  apply (@getParentDomain_strips_one_label platform nat
           (uriOf "www.radio.bbc.co.uk") start "co.uk").
  - reflexivity.
  - vm_compute. lia.
Defined.

Lemma getParentDomain_is_first_tested_witness :
  exists parent rest,
    fst (getParentDomain (P := platform) (uriOf "www.radio.bbc.co.uk") start)
    = Return parent /\
    tested (P := platform) (uriOf "www.radio.bbc.co.uk") never (Some true) start
    = parent :: rest.
Proof.
  apply (@getParentDomain_is_first_tested platform nat
           (uriOf "www.radio.bbc.co.uk") start start never "co.uk").
  - reflexivity.
  - vm_compute. lia.
Defined.

Lemma getParentDomain_failure_origin_witness :
  eTLD_getPublicSuffix (Platform := platform) (uriOf "uk")
    = Throw "NS_ERROR_INSUFFICIENT_DOMAIN_LEVELS" \/
  exists suffix,
    eTLD_getPublicSuffix (Platform := platform) (uriOf "uk") = Return suffix /\
    labelCount (host (uriOf "uk")) < labelCount suffix + 3 /\
    eTLD_getBaseDomain (Platform := platform) (uriOf "uk")
      = Throw "NS_ERROR_INSUFFICIENT_DOMAIN_LEVELS".
Proof.
  apply (@getParentDomain_failure_origin platform nat (uriOf "uk") start
           "NS_ERROR_INSUFFICIENT_DOMAIN_LEVELS").
  reflexivity.
Defined.

Lemma isThirdPartyURI_passes_failures_on_witness :
  fst (isThirdPartyURI (P := platform) "ftp://example.com/" "http://example.com/" start)
    = Throw "NS_ERROR_MALFORMED_URI" /\
  performed (isThirdPartyURI (P := platform) "ftp://example.com/" "http://example.com/")
    start = [MakeURI "ftp://example.com/"].
Proof.
  assert (Hout : ~ In "ftp://example.com/" fakeThirdPartyURLs)
    by (intros [H|[]]; discriminate).
  apply (proj1 (@isThirdPartyURI_passes_failures_on platform nat
                  "ftp://example.com/" "http://example.com/" start Hout)).
  reflexivity.
Defined.

Lemma getWindowForChannel_ignores_group_witness :
  Windows.getWindowForChannel
    {| Windows.URI := Windows.URI direct;
       Windows.notificationCallbacks := Windows.notificationCallbacks direct;
       Windows.loadGroup := Return (Some (groupOf (giving 3))) |}
  = Windows.getWindowForChannel direct.
Proof.
  apply (@getWindowForChannel_ignores_group nat direct (giving 7) (contextOf 7));
    reflexivity.
Defined.

Lemma getWindowForChannel_falls_back_to_group_witness :
  Windows.getWindowForChannel viaGroup
  = Windows.getWindowForChannel
      {| Windows.URI := Windows.URI viaGroup;
         Windows.notificationCallbacks := Return (Some (giving 3));
         Windows.loadGroup := Windows.loadGroup viaGroup |}.
Proof.
  apply (@getWindowForChannel_falls_back_to_group nat viaGroup refusing
           (groupOf (giving 3)) (giving 3) {| Windows.name := "NS_NOINTERFACE" |});
    reflexivity.
Defined.

Lemma getWindowForSdkTab_first_match_witness :
  exists i t,
    nth_error openTabs i = Some t /\
    fst t = "-1-2" /\
    20 = snd t /\
    (forall j t', j < i -> nth_error openTabs j = Some t' -> fst t' <> "-1-2") /\
    nth_error (Tabs.getAllWindows snd openTabs) i = Some 20.
Proof.
  apply (@getWindowForSdkTab_first_match (string * nat) nat fst snd openTabs
           {| Tabs.id := "-1-2" |} 20).
  reflexivity.
Defined.

End MoreRuns.
